(** * Feed retention and synchronisation engine of [usePosts.ts]

    A shallow embedding of the React hook [usePosts]
    (src/hooks/usePosts.ts): the aggregate builder and the retention
    enforcer inside [fetchPosts], the streak calculator inside
    [createPost], [toggleFavorite], and the way change notifications start
    hydrations.

    JavaScript values are modelled as follows.
    - strings are [string]; a [number] holding an integer is a [Z];
      [array.length] is a [nat] injected into [Z] where it meets a number;
    - a [Date] is its epoch value in milliseconds ([getTime()]), a [Z];
    - a nullable column is an [option], or a [JsVal] where the code tests
      its truthiness;
    - the Supabase client is the environment: its answers are inputs, and
      every write the hook issues is recorded, in program order, in a trace
      shared with the React state setters. *)

From Stdlib Require Import ZArith String.
From stdpp Require Import base tactics option list sorting strings.

Local Open Scope string_scope.
Local Open Scope Z_scope.

(** ** JavaScript helpers *)

(** A value read from a nullable numeric column. *)
Inductive JsVal : Type :=
  | JsNull
  | JsUndefined
  | JsNumber (z : Z).

(** [v || d] for a numeric [v]: [null], [undefined] and [0] are falsy. *)
Definition js_or (v : JsVal) (d : Z) : Z :=
  match v with
  | JsNumber z => if bool_decide (z = 0) then d else z
  | JsNull | JsUndefined => d
  end.

(** [l.slice(0, e)]: a negative [e] counts from the end, and the result is
    clamped to the array. *)
Definition slice0 {A} (e : Z) (l : list A) : list A :=
  let len := Z.of_nat (length l) in
  let final := if bool_decide (e < 0) then Z.max (len + e) 0 else Z.min e len in
  take (Z.to_nat final) l.

(** [Array.prototype.sort] with a comparator: a stable sort (ECMAScript
    2019).  A stable sort has one possible result, computed here by
    insertion from the right: an element goes in front of the first element
    it does not compare greater than, so equal elements keep their order. *)
Fixpoint sort_insert {A} (cmp : A → A → Z) (x : A) (l : list A) : list A :=
  match l with
  | [] => [x]
  | y :: l' => if bool_decide (cmp x y ≤ 0) then x :: y :: l'
               else y :: sort_insert cmp x l'
  end.

Definition sort {A} (cmp : A → A → Z) (l : list A) : list A :=
  foldr (sort_insert cmp) [] l.

(** [l.some(p)] *)
Definition some {A} (p : A → bool) (l : list A) : bool := existsb p l.

(** ** Data model *)

(** A reaction as embedded in the posts query. *)
Record Reaction : Type := {
  reaction_id : string;
  reaction_user_id : string;
  reaction_type : string;
  emoji_type : option string;
  comment : option string;
  created_at : Z
}.

(** A row of the [posts] query, before processing.  [row_reactions] is the
    embedded relation, which the code guards against being missing.  Of the
    columns the hook only passes on, [username], [media_url] and [caption]
    stand for all. *)
Record PostRow : Type := {
  row_id : string;
  row_user_id : string;
  row_username : string;
  row_media_url : string;
  row_caption : string;
  row_timestamp : Z;
  row_is_favorite : bool;
  row_streak_count : Z;
  row_reactions : option (list Reaction)
}.

(** The processed post held in the hook's state: the row's columns, spread,
    and the derived fields. *)
Record Post : Type := {
  id : string;
  user_id : string;
  username : string;
  media_url : string;
  caption : string;
  timestamp : Z;
  is_favorite : bool;
  streak_count : Z;
  family_id : string;
  reactions : list Reaction;
  likes_count : nat;
  comments_count : nat;
  user_has_liked : bool;
  elderly_reactions : list Reaction
}.

(** ** Aggregate builder: the callback of [data?.map] in [fetchPosts] *)

Definition processPost (currentFamilyId userId : string) (post : PostRow) : Post :=
  let reactions := default [] (row_reactions post) in
  let likes := filter (λ r, reaction_type r = "LIKE") reactions in
  let comments := filter (λ r, reaction_type r = "COMMENT") reactions in
  {| id := row_id post;
     user_id := row_user_id post;
     username := row_username post;
     media_url := row_media_url post;
     caption := row_caption post;
     timestamp := row_timestamp post;
     is_favorite := row_is_favorite post;
     streak_count := row_streak_count post;
     family_id := currentFamilyId;
     reactions := reactions;
     likes_count := length likes;
     comments_count := length comments;
     user_has_liked := some (λ r, bool_decide (reaction_user_id r = userId)) likes;
     elderly_reactions := filter (λ r, reaction_type r = "SLIDESHOW") reactions |}.

(** ** Effects

    The hook's functions are [async]: they read from and write to the
    Supabase client, call React state setters, and throw.  A computation
    runs in a [World], the hook's state together with the trace of what has
    been done so far, and ends with a value or with a thrown value. *)

(** What a [catch] clause can receive: an instance of [Error], or any other
    value (the client's error objects are passed to [throw] as they are). *)
Inductive Thrown : Type :=
  | ErrorObject (message : string)
  | OtherValue (description : string).

(** The columns [createPost] inserts. *)
Record NewPostRow : Type := {
  new_username : string;
  new_media_url : string;
  new_media_type : string;
  new_caption : string;
  new_avatar_url : string;
  new_user_id : string;
  new_streak_count : Z
}.

(** Writes sent to the backend and calls of the state setters. *)
Inductive Event : Type :=
  | DeletePost (post_id : string)
  | InsertPost (row : NewPostRow)
  | InsertPostFamilies (rows : list (string * string))
  | UpdateUser (uid : string) (streak : Z) (last_post_date : Z)
  | UpdateFavorite (post_id : string) (fav : bool)
  | SetPosts (ps : list Post)
  | SetError (msg : string)
  | SetLoading (b : bool).

(** The three [useState] cells the hook returns. *)
Record HookState : Type := {
  posts : list Post;
  loading : bool;
  error : option string
}.

(** [useState([])], [useState(true)], [useState(null)] *)
Definition initialState : HookState :=
  {| posts := []; loading := true; error := None |}.

Record World : Type := {
  hook : HookState;
  trace : list Event
}.

Definition Eff (A : Type) : Type := World → (Thrown + A) * World.

#[global] Instance Eff_ret : MRet Eff := λ A a w, (inr a, w).

#[global] Instance Eff_bind : MBind Eff := λ A B f m w,
  match m w with
  | (inr a, w') => f a w'
  | (inl e, w') => (inl e, w')
  end.

#[global] Instance Eff_throw : MThrow Thrown Eff := λ A e w, (inl e, w).

(** [try { body } catch (err) { handler }] *)
Definition try_catch {A} (body : Eff A) (handler : Thrown → Eff A) : Eff A :=
  λ w, match body w with
       | (inr a, w') => (inr a, w')
       | (inl e, w') => handler e w'
       end.

(** [try { body } finally { cleanup }]: the cleanup runs on both exits and
    the body's outcome is kept. *)
Definition try_finally {A} (body : Eff A) (cleanup : Eff unit) : Eff A :=
  λ w, match body w with
       | (r, w') => match cleanup w' with
                    | (inr _, w'') => (r, w'')
                    | (inl e, w'') => (inl e, w'')
                    end
       end.

Definition emit (ev : Event) : Eff unit :=
  λ w, (inr (), {| hook := hook w; trace := trace w ++ [ev] |}).

Definition update_hook (f : HookState → HookState) : Eff unit :=
  λ w, (inr (), {| hook := f (hook w); trace := trace w |}).

(** [setPosts(prev => f(prev))] *)
Definition setPostsWith (f : list Post → list Post) : Eff unit :=
  λ w, let ps := f (posts (hook w)) in
       (update_hook (λ h, {| posts := ps; loading := loading h; error := error h |});;
        emit (SetPosts ps)) w.

Definition setPosts (ps : list Post) : Eff unit := setPostsWith (λ _, ps).

Definition setError (msg : string) : Eff unit :=
  update_hook (λ h, {| posts := posts h; loading := loading h; error := Some msg |});;
  emit (SetError msg).

Definition setLoading (b : bool) : Eff unit :=
  update_hook (λ h, {| posts := posts h; loading := b; error := error h |});;
  emit (SetLoading b).

(** [for (const x of l) { await body(x) }] *)
Fixpoint for_of {A} (l : list A) (body : A → Eff unit) : Eff unit :=
  match l with
  | [] => mret ()
  | x :: l' => body x;; for_of l' body
  end.

(** [const { data, error } = await query; if (error) throw error;] *)
Definition unwrap {A} (response : Thrown + A) : Eff A :=
  match response with
  | inl e => mthrow e
  | inr data => mret data
  end.

(** [const { error } = await query; if (error) throw error;] *)
Definition check (response : option Thrown) : Eff unit :=
  match response with
  | Some e => mthrow e
  | None => mret ()
  end.

(** ** The backend

    What the Supabase client answers.  The hook only sees these answers, so
    they are the inputs of a run. *)

Record UserProfile : Type := {
  name : string;
  avatar_url : option string;
  profile_streak_count : Z;
  last_post_date : option Z
}.

Record Backend : Type := {
  (** [supabase.auth.getUser()]: the id of the signed-in user *)
  auth_getUser : option string;
  (** [from('families').select('slideshow_photo_limit').eq('id', f).single()] *)
  families_select : string → Thrown + JsVal;
  (** the posts query of [fetchPosts]; [data] may be [null] *)
  posts_select : string → Thrown + option (list PostRow);
  (** [from('users').select(...).eq('id', uid).single()] *)
  users_select : string → Thrown + UserProfile;
  (** [from('posts').insert([row]).select().single()] *)
  posts_insert : NewPostRow → Thrown + PostRow;
  (** [from('post_families').insert(rows)] *)
  post_families_insert : list (string * string) → option Thrown;
  (** [from('users').update({streak_count, last_post_date}).eq('id', uid)] *)
  users_update : string → Z → Z → option Thrown;
  (** [from('posts').update({is_favorite}).eq('id', id)] *)
  posts_update_favorite : string → bool → option Thrown;
  (** [new Date()], in milliseconds *)
  clock_now : Z
}.

(** [const { data: { user } } = await supabase.auth.getUser();
     if (!user) throw new Error('Not authenticated');] *)
Definition getUser (be : Backend) : Eff string :=
  match auth_getUser be with
  | Some uid => mret uid
  | None => mthrow (ErrorObject "Not authenticated")
  end.

(** ** Retention enforcer: the second half of [fetchPosts] *)

(** The comparator of the sort: [new Date(a.timestamp) - new Date(b.timestamp)] *)
Definition by_timestamp (a b : Post) : Z := timestamp a - timestamp b.

Definition nonFavoritePosts (processedPosts : list Post) : list Post :=
  sort by_timestamp (filter (λ post, negb (is_favorite post)) processedPosts).

(** [processedPosts.length - photoLimit] *)
Definition postsToRemove (processedPosts : list Post) (photoLimit : Z) : Z :=
  Z.of_nat (length processedPosts) - photoLimit.

(** The value of the local [postsToDelete] where it is defined, and no post
    on the two paths that do not define it; [enforceRetention_run] relates
    it to the body below. *)
Definition postsToDelete (processedPosts : list Post) (photoLimit : Z) : list Post :=
  if bool_decide (Z.of_nat (length processedPosts) > photoLimit) then
    if bool_decide (Z.of_nat (length (nonFavoritePosts processedPosts))
                    >= postsToRemove processedPosts photoLimit) then
      slice0 (postsToRemove processedPosts photoLimit) (nonFavoritePosts processedPosts)
    else []
  else [].

(** [processedPosts.filter(post => !postsToDelete.some(p => p.id === post.id))] *)
Definition remainingPosts (processedPosts toDelete : list Post) : list Post :=
  filter (λ post, negb (some (λ p, bool_decide (id p = id post)) toDelete)) processedPosts.

(** The body of the [try] block after the posts have been processed. *)
Definition enforceRetention (processedPosts : list Post) (photoLimit : Z) : Eff unit :=
  if bool_decide (Z.of_nat (length processedPosts) > photoLimit) then
    let nonFavorite := nonFavoritePosts processedPosts in
    let toRemove := postsToRemove processedPosts photoLimit in
    if bool_decide (Z.of_nat (length nonFavorite) >= toRemove) then
      let toDelete := slice0 toRemove nonFavorite in
      for_of toDelete (λ post, emit (DeletePost (id post)));;
      setPosts (remainingPosts processedPosts toDelete)
    else
      setPosts processedPosts
  else
    setPosts processedPosts.

(** [err instanceof Error ? err.message : fallback] *)
Definition message_or (fallback : string) (err : Thrown) : string :=
  match err with
  | ErrorObject m => m
  | OtherValue _ => fallback
  end.

Definition fetchPosts (be : Backend) (currentFamilyId : string) : Eff unit :=
  try_finally
    (try_catch
       (user ← getUser be;
        slideshow_photo_limit ← unwrap (families_select be currentFamilyId);
        let photoLimit := js_or slideshow_photo_limit 30 in
        data ← unwrap (posts_select be currentFamilyId);
        let processedPosts :=
          default [] (fmap (M := list) (processPost currentFamilyId user) <$> data) in
        enforceRetention processedPosts photoLimit)
       (λ err, setError (message_or "Failed to load posts" err)))
    (setLoading false).

(** ** Streak calculator: the date arithmetic of [createPost] *)

Definition MS_PER_DAY : Z := 1000 * 60 * 60 * 24.

(** [d.toISOString().split('T')[0]]: the UTC calendar date of an instant.
    A date string is modelled by its day number, counted from the epoch. *)
Definition isoDate (ms : Z) : Z := ms `div` MS_PER_DAY.

(** [new Date(dateString).getTime()]: a date-only string is read as
    midnight UTC of that day. *)
Definition dateTime (day : Z) : Z := day * MS_PER_DAY.

(** The value of [newStreakCount] once the [if] cascade has run; [today] is
    the date string computed from the clock. *)
Definition newStreakCount (userProfile : UserProfile) (today : Z) : Z :=
  let lastPostDate := isoDate <$> last_post_date userProfile in
  match lastPostDate with
  | Some lastPostDate =>
      let daysSinceLastPost := (dateTime today - dateTime lastPostDate) `div` MS_PER_DAY in
      if bool_decide (daysSinceLastPost = 1) then profile_streak_count userProfile + 1
      else if bool_decide (daysSinceLastPost = 0) then profile_streak_count userProfile
      else 1
  | None => 1
  end.

(** ** Mutation gateway *)

(** The draft handed to [createPost]. *)
Record NewPost : Type := {
  draft_media_url : string;
  draft_media_type : string;
  draft_caption : string
}.

Definition DEFAULT_AVATAR : string :=
  "https://images.unsplash.com/photo-1535713875002-d1d0cf377fde?auto=format&fit=crop&w=100".

(** [s || d] for a nullable string: [null] and the empty string are falsy. *)
Definition js_or_string (s : option string) (d : string) : string :=
  match s with
  | Some v => if bool_decide (v = "") then d else v
  | None => d
  end.

(** The row [createPost] inserts for a profile, a draft and a streak. *)
Definition newPostRow (user : string) (userProfile : UserProfile) (post : NewPost)
    (streak : Z) : NewPostRow :=
  {| new_username := name userProfile;
     new_media_url := draft_media_url post;
     new_media_type := draft_media_type post;
     new_caption := draft_caption post;
     new_avatar_url := js_or_string (avatar_url userProfile) DEFAULT_AVATAR;
     new_user_id := user;
     new_streak_count := streak |}.

Definition createPost (be : Backend) (post : NewPost) (familyIds : list string)
    : Eff PostRow :=
  try_catch
    (user ← getUser be;
     userProfile ← unwrap (users_select be user);
     let today := isoDate (clock_now be) in
     let streak := newStreakCount userProfile today in
     let row := newPostRow user userProfile post streak in
     emit (InsertPost row);;
     newPost ← unwrap (posts_insert be row);
     let postFamilies := (λ familyId, (row_id newPost, familyId)) <$> familyIds in
     emit (InsertPostFamilies postFamilies);;
     check (post_families_insert be postFamilies);;
     emit (UpdateUser user streak today);;
     check (users_update be user streak today);;
     mret newPost)
    (λ _, mthrow (ErrorObject "Failed to create post")).

(** [{ ...p, is_favorite: !p.is_favorite }] *)
Definition flip_favorite (p : Post) : Post :=
  {| id := id p; user_id := user_id p; username := username p;
     media_url := media_url p; caption := caption p; timestamp := timestamp p;
     is_favorite := negb (is_favorite p);
     streak_count := streak_count p; family_id := family_id p;
     reactions := reactions p; likes_count := likes_count p;
     comments_count := comments_count p; user_has_liked := user_has_liked p;
     elderly_reactions := elderly_reactions p |}.

(** [renderedPosts] is the [posts] value the closure captured at render
    time; the updater passed to [setPosts] receives the current state. *)
Definition toggleFavorite (be : Backend) (renderedPosts : list Post) (postId : string)
    : Eff unit :=
  try_catch
    (post ← match List.find (λ p, bool_decide (id p = postId)) renderedPosts with
            | Some p => mret p
            | None => mthrow (ErrorObject "Post not found")
            end;
     emit (UpdateFavorite postId (negb (is_favorite post)));;
     check (posts_update_favorite be postId (negb (is_favorite post)));;
     setPostsWith (λ prevPosts,
       (λ p, if bool_decide (id p = postId) then flip_favorite p else p) <$> prevPosts))
    (λ _, mthrow (ErrorObject "Failed to update favorite status")).

(** ** Feed synchroniser: who starts a hydration, and when

    An [async] function runs as soon as it is called and finishes later; in
    between it is in flight.  [fetchPosts] calls its setters only after its
    last [await], so its effect on the hook's state happens at once, when
    it settles. *)

Record Engine : Type := {
  familyId : option string;
  state : World;
  (** the [currentFamilyId] of every call of [fetchPosts] still running *)
  in_flight : list string;
  (** how many calls of [fetchPosts] were made *)
  started : nat
}.

Definition mount (fam : option string) : Engine :=
  {| familyId := fam;
     state := {| hook := initialState; trace := [] |};
     in_flight := []; started := 0 |}.

Inductive Signal : Type :=
  (** the effect of [useEffect] runs *)
  | Effect
  (** one of the two [postgres_changes] callbacks fires *)
  | Notification
  (** the caller invokes [refreshPosts] *)
  | Refresh
  (** the [i]-th running call of [fetchPosts] finishes against a backend *)
  | Settle (i : nat) (be : Backend)
  (** a call of [toggleFavorite] runs to its end against a backend *)
  | Toggle (renderedPosts : list Post) (postId : string) (be : Backend).

(** A call [fetchPosts(familyId)] begins. *)
Definition start_fetch (fam : string) (e : Engine) : Engine :=
  {| familyId := familyId e; state := state e;
     in_flight := in_flight e ++ [fam]; started := S (started e) |}.

(** Every trigger is guarded by [familyId] alone: the effect by
    [if (familyId)], the callbacks by being subscribed only then, and
    [refreshPosts] by [familyId && ...]. *)
Definition step (e : Engine) (s : Signal) : Engine :=
  match s with
  | Effect | Notification | Refresh =>
      match familyId e with
      | Some fam => start_fetch fam e
      | None => e
      end
  | Settle i be =>
      match in_flight e !! i with
      | Some fam =>
          {| familyId := familyId e;
             state := (fetchPosts be fam (state e)).2;
             in_flight := delete i (in_flight e);
             started := started e |}
      | None => e
      end
  | Toggle renderedPosts postId be =>
      {| familyId := familyId e;
         state := (toggleFavorite be renderedPosts postId (state e)).2;
         in_flight := in_flight e;
         started := started e |}
  end.

Definition run (e : Engine) (signals : list Signal) : Engine :=
  foldl step e signals.

(** ** Observations on traces *)

(** The ids whose deletion was requested, in order. *)
Definition deleted_ids (tr : list Event) : list string :=
  omap (λ ev, match ev with DeletePost i => Some i | _ => None end) tr.

(** Newest first: every post is at least as recent as all that follow. *)
Definition newest_first (l : list Post) : Prop :=
  StronglySorted (λ a b, timestamp b ≤ timestamp a) l.

(** Oldest first. *)
Definition oldest_first (l : list Post) : Prop :=
  StronglySorted (λ a b, timestamp a ≤ timestamp b) l.

(** A world with the given hook state and nothing done yet. *)
Definition fresh (h : HookState) : World := {| hook := h; trace := [] |}.

(** ** Outcomes of a hydration *)

Definition with_posts (ps : list Post) (h : HookState) : HookState :=
  {| posts := ps; loading := loading h; error := error h |}.

Definition delete_requests (l : list Post) : list Event :=
  (λ post, DeletePost (id post)) <$> l.

(** What [fetchPosts] publishes for a processed feed and a limit. *)
Definition published (feed : list Post) (photoLimit : Z) : list Post :=
  remainingPosts feed (postsToDelete feed photoLimit).

(** The value [fetchPosts] throws inside its [try], when it does. *)
Definition fetch_failure (be : Backend) (fam : string) : option Thrown :=
  match auth_getUser be with
  | None => Some (ErrorObject "Not authenticated")
  | Some _ =>
      match families_select be fam with
      | inl e => Some e
      | inr _ => match posts_select be fam with
                 | inl e => Some e
                 | inr _ => None
                 end
      end
  end.

(** ** Predicates used in the statements *)

(** [count_kind kind rs]: one for every row of [rs] of that kind. *)
Definition count_kind (kind : string) (rs : list Reaction) : nat :=
  sum_list_with (λ r, if bool_decide (reaction_type r = kind) then 1%nat else 0%nat) rs.

(** The backend honours [.order('timestamp', { ascending: false })]. *)
Definition ordered_backend (be : Backend) : Prop :=
  ∀ fam rows, posts_select be fam = inr (Some rows) →
    StronglySorted (λ a b, row_timestamp b ≤ row_timestamp a) rows.

Definition ordered_signal (s : Signal) : Prop :=
  match s with
  | Settle _ be => ordered_backend be
  | _ => True
  end.

Definition is_SetPosts (ev : Event) : bool :=
  match ev with SetPosts _ => true | _ => false end.

Definition is_UpdateFavorite (ev : Event) : bool :=
  match ev with UpdateFavorite _ _ => true | _ => false end.

(** An optimistic update: the first [setPosts] comes before the first
    favourite write. *)
Definition local_update_precedes_write (tr : list Event) : bool :=
  match list_find is_SetPosts tr, list_find is_UpdateFavorite tr with
  | Some (i, _), Some (j, _) => bool_decide (i < j)%nat
  | _, _ => false
  end.

(** ** Backends with one answer replaced *)

Definition with_auth (user : option string) (be : Backend) : Backend :=
  {| auth_getUser := user;
     families_select := families_select be;
     posts_select := posts_select be;
     users_select := users_select be;
     posts_insert := posts_insert be;
     post_families_insert := post_families_insert be;
     users_update := users_update be;
     posts_update_favorite := posts_update_favorite be;
     clock_now := clock_now be |}.

Definition with_photo_limit (limit : JsVal) (be : Backend) : Backend :=
  {| auth_getUser := auth_getUser be;
     families_select := λ _, inr limit;
     posts_select := posts_select be;
     users_select := users_select be;
     posts_insert := posts_insert be;
     post_families_insert := post_families_insert be;
     users_update := users_update be;
     posts_update_favorite := posts_update_favorite be;
     clock_now := clock_now be |}.

Definition with_favorite_answer (answer : option Thrown) (be : Backend) : Backend :=
  {| auth_getUser := auth_getUser be;
     families_select := families_select be;
     posts_select := posts_select be;
     users_select := users_select be;
     posts_insert := posts_insert be;
     post_families_insert := post_families_insert be;
     users_update := users_update be;
     posts_update_favorite := λ _ _, answer;
     clock_now := clock_now be |}.

(** ** Sample data *)

Definition mkReaction (rid uid kind : string) : Reaction :=
  {| reaction_id := rid; reaction_user_id := uid; reaction_type := kind;
     emoji_type := None; comment := None; created_at := 0 |}.

Definition mkRow (pid : string) (ts : Z) (fav : bool) (rs : option (list Reaction)) : PostRow :=
  {| row_id := pid; row_user_id := "u"; row_username := "n"; row_media_url := "m";
     row_caption := "c"; row_timestamp := ts; row_is_favorite := fav;
     row_streak_count := 1; row_reactions := rs |}.

(** Four posts, newest first; the oldest is a favourite or not. *)
Definition sampleRows (oldest_is_favorite : bool) : list PostRow :=
  [mkRow "p4" 4 false None; mkRow "p3" 3 false None;
   mkRow "p2" 2 false None; mkRow "p1" 1 oldest_is_favorite None].

(** Three favourites and one other post. *)
Definition favoriteRows : list PostRow :=
  [mkRow "p4" 4 true None; mkRow "p3" 3 true None;
   mkRow "p2" 2 false None; mkRow "p1" 1 true None].

(** Posted on day 19999, with a streak of 4. *)
Definition sampleProfile : UserProfile :=
  {| name := "Ann"; avatar_url := None; profile_streak_count := 4;
     last_post_date := Some (dateTime 19999) |}.

Definition sampleDraft : NewPost :=
  {| draft_media_url := "m"; draft_media_type := "image"; draft_caption := "c" |}.

(** A backend where user A is signed in, every call succeeds, and the
    clock shows one in the morning of day 20000. *)
Definition sampleBackend (limit : JsVal) (rows : list PostRow) : Backend :=
  {| auth_getUser := Some "A";
     families_select := λ _, inr limit;
     posts_select := λ _, inr (Some rows);
     users_select := λ _, inr sampleProfile;
     posts_insert := λ _, inr (mkRow "new" 5 false None);
     post_families_insert := λ _, None;
     users_update := λ _ _ _, None;
     posts_update_favorite := λ _ _, None;
     clock_now := dateTime 20000 + 3600000 |}.

(** [n] posts with distinct ids, none a favourite, newest first. *)
Definition manyRows (n : nat) : list PostRow :=
  (λ i, mkRow (String (Ascii.ascii_of_nat (33 + i)) "") (Z.of_nat (n - i)) false None)
    <$> seq 0 n.

Definition sampleFeed (oldest_is_favorite : bool) : list Post :=
  processPost "f" "A" <$> sampleRows oldest_is_favorite.

(** ** The user's row after a post

    [createPost] ends with
    [update({ streak_count: newStreakCount, last_post_date: today })]; the
    date string it stores is read back by [new Date(...)] as midnight UTC of
    that day. *)

Definition stored_profile (userProfile : UserProfile) (streak today : Z) : UserProfile :=
  {| name := name userProfile;
     avatar_url := avatar_url userProfile;
     profile_streak_count := streak;
     last_post_date := Some (dateTime today) |}.

(** The user's row after posting on the given days, in that order. *)
Definition after_posts (userProfile : UserProfile) (days : list Z) : UserProfile :=
  foldl (λ p day, stored_profile p (newStreakCount p day) day) userProfile days.

(** [{ ...p, user_has_liked: b }] *)
Definition set_user_has_liked (b : bool) (p : Post) : Post :=
  {| id := id p; user_id := user_id p; username := username p;
     media_url := media_url p; caption := caption p; timestamp := timestamp p;
     is_favorite := is_favorite p;
     streak_count := streak_count p; family_id := family_id p;
     reactions := reactions p; likes_count := likes_count p;
     comments_count := comments_count p; user_has_liked := b;
     elderly_reactions := elderly_reactions p |}.

(** Two processed posts that are equal but, possibly, for [user_has_liked]. *)
Definition same_row (p q : Post) : Prop :=
  q = set_user_has_liked (user_has_liked q) p.

(** The events a computation added to a trace. *)
Definition added (before after : World) : list Event :=
  drop (length (trace before)) (trace after).

Definition is_SetLoading (ev : Event) : bool :=
  match ev with SetLoading _ => true | _ => false end.

(** How many hydrations have run to their [finally] block. *)
Definition settled (tr : list Event) : nat := length (filter is_SetLoading tr).

Definition is_UpdateUser (ev : Event) : bool :=
  match ev with UpdateUser _ _ _ => true | _ => false end.

Definition is_InsertPost (ev : Event) : bool :=
  match ev with InsertPost _ => true | _ => false end.

Definition is_InsertPostFamilies (ev : Event) : bool :=
  match ev with InsertPostFamilies _ => true | _ => false end.

(** ** The sign-in screen: [AuthScreen] and its [handleAuth]

    The screen keeps six [useState] cells.  [signIn] comes from [useAuth];
    what it answers to the credentials is an input: it resolves, or it
    rejects with a value. *)

Module AuthScreen.

Inductive AuthMode : Type := login | signup.

Record State : Type := {
  mode : AuthMode;
  loading : bool;
  error : option string;
  success : option string;
  email : string;
  password : string
}.

Definition initial : State :=
  {| mode := login; loading := false; error := None; success := None;
     email := ""; password := "" |}.

Definition setMode (m : AuthMode) (st : State) : State :=
  {| mode := m; loading := loading st; error := error st; success := success st;
     email := email st; password := password st |}.

Definition setLoading (b : bool) (st : State) : State :=
  {| mode := mode st; loading := b; error := error st; success := success st;
     email := email st; password := password st |}.

Definition setError (e : option string) (st : State) : State :=
  {| mode := mode st; loading := loading st; error := e; success := success st;
     email := email st; password := password st |}.

Definition setSuccess (s : option string) (st : State) : State :=
  {| mode := mode st; loading := loading st; error := error st; success := s;
     email := email st; password := password st |}.

Definition setEmail (v : string) (st : State) : State :=
  {| mode := mode st; loading := loading st; error := error st; success := success st;
     email := v; password := password st |}.

Definition setPassword (v : string) (st : State) : State :=
  {| mode := mode st; loading := loading st; error := error st; success := success st;
     email := email st; password := v |}.

(** [handleAuth]: the state it leaves and the credentials it passed to
    [signIn], if it called it.  [mode], [email] and [password] are the
    values of the render the handler belongs to. *)
Definition handleAuth (signIn : string → string → option Thrown) (st : State)
    : State * list (string * string) :=
  let st := setLoading true (setSuccess None (setError None st)) in
  let '(st, calls) :=
    match mode st with
    | login =>
        match signIn (email st) (password st) with
        | None => (st, [(email st, password st)])
        | Some err =>
            (setError (Some (message_or "An error occurred" err)) st,
             [(email st, password st)])
        end
    | signup => (setMode signup st, [])
    end in
  (setLoading false st, calls).

(** [handleAuth] up to its [await]: the three setters, then the call of
    [signIn], which is left running.  In [signup] mode there is no
    [await]: the handler runs through its [finally] at once. *)
Definition handleAuth_begin (st : State) : State * list (string * string) :=
  let st := setLoading true (setSuccess None (setError None st)) in
  match mode st with
  | login => (st, [(email st, password st)])
  | signup => (setLoading false (setMode signup st), [])
  end.

(** [handleAuth] after its [await]: [signIn] has resolved, or has rejected
    with a value; the [catch] and the [finally] run on the state of that
    moment. *)
Definition handleAuth_settle (outcome : option Thrown) (st : State) : State :=
  setLoading false
    match outcome with
    | None => st
    | Some err => setError (Some (message_or "An error occurred" err)) st
    end.

(** The screen between two events: its state and the calls of [signIn]
    that are still running, oldest first. *)
Record Screen : Type := {
  view : State;
  pending : list (string * string)
}.

(** What can happen on the screen.  The form whose [onSubmit] is
    [handleAuth] is rendered in [login] mode only, next to the "Sign up"
    button; in [signup] mode the screen shows the "Back to login" button and
    the sign-up form, which calls [onSuccess].  While [signIn] is running
    the fields and the mode buttons stay enabled.  The browser refuses some
    submissions (an empty or malformed field, the disabled button); [Submit]
    is allowed whenever the form is shown, which only adds runs. *)
Inductive Action : Type :=
  | TypeEmail (v : string)
  | TypePassword (v : string)
  | Submit
  | Settle (i : nat) (outcome : option Thrown)
  | ClickSignUp
  | ClickBackToLogin
  | SignupSucceeded.

Definition on_view (f : State → State) (s : Screen) : Screen :=
  {| view := f (view s); pending := pending s |}.

Definition act (s : Screen) (a : Action) : Screen :=
  match a, mode (view s) with
  | TypeEmail v, login => on_view (setEmail v) s
  | TypePassword v, login => on_view (setPassword v) s
  | Submit, login =>
      let '(st, calls) := handleAuth_begin (view s) in
      {| view := st; pending := pending s ++ calls |}
  | Settle i outcome, _ =>
      match pending s !! i with
      | Some _ => {| view := handleAuth_settle outcome (view s);
                     pending := delete i (pending s) |}
      | None => s
      end
  | ClickSignUp, login => on_view (setMode signup) s
  | ClickBackToLogin, signup => on_view (setMode login) s
  | SignupSucceeded, signup => on_view (setMode login) s
  | _, _ => s
  end.

Definition session (actions : list Action) : Screen :=
  foldl act {| view := initial; pending := [] |} actions.

End AuthScreen.

(** * Properties *)

(** ** Aggregate builder *)

Lemma length_filter_kind kind (rs : list Reaction) :
  length (filter (λ r, reaction_type r = kind) rs) = count_kind kind rs.
Proof.
  induction rs as [|r rs IH]; [done|].
  rewrite filter_cons. unfold count_kind in *. cbn [sum_list_with].
  case_bool_decide; case_decide; try done; cbn; lia.
Qed.

Lemma some_liked uid (rs : list Reaction) :
  some (λ r, bool_decide (reaction_user_id r = uid))
       (filter (λ r, reaction_type r = "LIKE") rs) = true
  ↔ ∃ r, r ∈ rs ∧ reaction_type r = "LIKE" ∧ reaction_user_id r = uid.
Proof.
  unfold some. rewrite existsb_exists. split.
  - intros (r & Hin & Hu). exists r.
    apply list_elem_of_In, list_elem_of_filter in Hin as [? ?].
    by apply bool_decide_eq_true in Hu.
  - intros (r & Hin & Hk & Hu). exists r. split.
    + apply list_elem_of_In, list_elem_of_filter. done.
    + by apply bool_decide_eq_true.
Qed.

(** C4. For every row, family and acting user, the processed post counts
    every reaction row of kind LIKE in [likes_count] and every row of kind
    COMMENT in [comments_count], once each and without deduplication (the
    same LIKE row twice counts for two);
    [user_has_liked] holds exactly when some LIKE row carries the acting
    user's id; a row without reactions (missing or empty) gets zero counts
    and no like.  [processPost] is a function outside [Eff]: it cannot
    write. *)
Theorem processPost_aggregates (fam uid : string) (row : PostRow) :
  let rs := default [] (row_reactions row) in
  let p := processPost fam uid row in
  likes_count p = count_kind "LIKE" rs
  ∧ comments_count p = count_kind "COMMENT" rs
  ∧ (user_has_liked p = true
     ↔ ∃ r, r ∈ rs ∧ reaction_type r = "LIKE" ∧ reaction_user_id r = uid)
  ∧ (rs = [] → likes_count p = 0%nat ∧ comments_count p = 0%nat
              ∧ user_has_liked p = false)
  ∧ (∀ r rest, rs = r :: r :: rest → reaction_type r = "LIKE" →
       likes_count p = S (S (count_kind "LIKE" rest))).
Proof.
  intros rs p. subst p. unfold processPost. cbn. fold rs.
  rewrite !length_filter_kind. repeat split.
  - apply some_liked.
  - apply some_liked.
  - by rewrite H.
  - by rewrite H.
  - by rewrite H.
  - intros r rest -> Hr. unfold count_kind. cbn.
    by rewrite !bool_decide_eq_true_2 by done.
Qed.

Example processPost_ex :
  let row := mkRow "p" 5 false
               (Some [mkReaction "1" "A" "LIKE"; mkReaction "2" "B" "LIKE";
                      mkReaction "3" "A" "COMMENT"]) in
  let a := processPost "f" "A" row in
  let c := processPost "f" "C" row in
  (likes_count a, comments_count a, user_has_liked a, user_has_liked c)
  = (2%nat, 1%nat, true, false).
Proof. vm_compute. reflexivity. Qed.

(** ** Streak calculator *)

Lemma days_between (today day : Z) :
  (dateTime today - dateTime day) `div` MS_PER_DAY = today - day.
Proof.
  unfold dateTime. rewrite <- Z.mul_sub_distr_r.
  apply Z.div_mul. unfold MS_PER_DAY. lia.
Qed.

(** A date string read back as an instant names the same day. *)
Lemma isoDate_dateTime (day : Z) : isoDate (dateTime day) = day.
Proof. unfold isoDate, dateTime. apply Z.div_mul. unfold MS_PER_DAY. lia. Qed.

Example newStreakCount_ex :
  let profile last := {| name := "Ann"; avatar_url := None;
                         profile_streak_count := 7; last_post_date := last |} in
  newStreakCount (profile None) 100 = 1
  ∧ newStreakCount (profile (Some (dateTime 99))) 100 = 8
  ∧ newStreakCount (profile (Some (dateTime 100 + 5000))) 100 = 7
  ∧ newStreakCount (profile (Some (dateTime 97))) 100 = 1
  ∧ newStreakCount (profile (Some (dateTime 101))) 100 = 1.
Proof. vm_compute. done. Qed.

(** C3. The streak written by [createPost] follows the calendar-day
    difference between the stored last post date and today: 1 when there is
    no last post date; the current streak when the difference is 0; the
    current streak plus one when it is 1; and 1 for any other difference,
    larger than one or negative.  Nothing is asked of the current streak. *)
Theorem newStreakCount_cases (userProfile : UserProfile) (today : Z) :
  let current_streak := profile_streak_count userProfile in
  match last_post_date userProfile with
  | None => newStreakCount userProfile today = 1
  | Some last =>
      let days := today - isoDate last in
      (days = 0 → newStreakCount userProfile today = current_streak)
      ∧ (days = 1 → newStreakCount userProfile today = current_streak + 1)
      ∧ (days > 1 → newStreakCount userProfile today = 1)
      ∧ (days < 0 → newStreakCount userProfile today = 1)
  end.
Proof.
  unfold newStreakCount. destruct (last_post_date userProfile) as [last|]; cbn; [|done].
  rewrite days_between.
  repeat split; intros; repeat case_bool_decide; lia.
Qed.


(** ** Lists: [sort], [slice] and order *)

Section sorting.
Context {A : Type} (key : A → Z).

Let cmp (a b : A) : Z := key a - key b.
Let le (a b : A) : Prop := key a ≤ key b.

Lemma sort_insert_perm (x : A) (l : list A) : sort_insert cmp x l ≡ₚ x :: l.
Proof.
  induction l as [|y l IH]; cbn; [done|].
  case_bool_decide; [done|]. rewrite IH. apply Permutation_swap.
Qed.

Lemma sort_perm (l : list A) : sort cmp l ≡ₚ l.
Proof.
  induction l as [|x l IH]; cbn; [done|].
  fold (sort cmp l). by rewrite sort_insert_perm, IH.
Qed.

Lemma sort_insert_sorted (x : A) (l : list A) :
  StronglySorted le l → StronglySorted le (sort_insert cmp x l).
Proof.
  induction 1 as [|y l Hs IH Hy]; cbn.
  - repeat constructor.
  - case_bool_decide as Hc; unfold cmp in Hc.
    + constructor; [by constructor|].
      constructor; [unfold le; lia|].
      eapply Forall_impl; [exact Hy|]. unfold le. intros; cbn in *; lia.
    + constructor; [done|].
      rewrite sort_insert_perm. constructor; [unfold le; lia | done].
Qed.

Lemma sort_sorted (l : list A) : StronglySorted le (sort cmp l).
Proof.
  induction l as [|x l IH]; cbn; [constructor|].
  by apply sort_insert_sorted.
Qed.

Lemma length_sort (l : list A) : length (sort cmp l) = length l.
Proof. by rewrite sort_perm. Qed.
End sorting.

(** Equal keys keep their order. *)
Example sort_ex :
  sort (λ a b : Z * string, a.1 - b.1) [(3, "a"); (1, "b"); (2, "c"); (1, "d")]
  = [(1, "b"); (1, "d"); (2, "c"); (3, "a")].
Proof. vm_compute. reflexivity. Qed.

Example slice0_ex :
  slice0 2 [1; 2; 3] = [1; 2] ∧ slice0 5 [1; 2; 3] = [1; 2; 3]
  ∧ slice0 (-1) [1; 2; 3] = [1; 2] ∧ slice0 (-7) [1; 2; 3] = [].
Proof. vm_compute. done. Qed.

Lemma slice0_take {A} (e : Z) (l : list A) :
  0 ≤ e → slice0 e l = take (Z.to_nat e) l.
Proof.
  intros He. unfold slice0. rewrite bool_decide_eq_false_2 by lia.
  destruct (decide (e ≤ Z.of_nat (length l))).
  - by rewrite Z.min_l.
  - rewrite Z.min_r by lia. rewrite Nat2Z.id.
    rewrite !take_ge; [done | lia | lia].
Qed.

Lemma StronglySorted_sublist {A} (R : relation A) (l1 l2 : list A) :
  l1 `sublist_of` l2 → StronglySorted R l2 → StronglySorted R l1.
Proof.
  induction 1 as [|x l1 l2 Hsub IH|x l1 l2 Hsub IH]; intros Hs.
  - constructor.
  - apply StronglySorted_inv in Hs as [Hs Hx]. constructor; [by apply IH|].
    eapply Forall_forall. intros y Hy. eapply Forall_forall in Hx; [exact Hx|].
    by eapply elem_of_sublist.
  - apply StronglySorted_inv in Hs as [Hs _]. by apply IH.
Qed.

(** The first [k] elements of a sorted list are below all the others. *)
Lemma take_sorted_below {A} (R : relation A) (k : nat) (l : list A) (x y : A) :
  StronglySorted R l → x ∈ take k l → y ∈ l → y ∉ take k l → R x y.
Proof.
  intros Hs Hx Hy Hny.
  rewrite <- (take_drop k l) in Hs, Hy.
  apply elem_of_app in Hy as [Hy|Hy]; [done|].
  eapply (StronglySorted_app_1_elem_of R); eauto.
Qed.

(** ** Running the hydration *)

Ltac eff_unfold :=
  cbv [mbind mret mthrow Eff_bind Eff_ret Eff_throw try_catch try_finally
       emit update_hook setPosts setPostsWith setError setLoading unwrap check
       getUser fresh].

Lemma for_of_delete (l : list Post) (w : World) :
  for_of l (λ post, emit (DeletePost (id post))) w
  = (inr (), {| hook := hook w; trace := trace w ++ delete_requests l |}).
Proof.
  revert w. induction l as [|p l IH]; intros w; cbn.
  - eff_unfold. rewrite app_nil_r. by destruct w.
  - eff_unfold. cbn. rewrite IH. cbn. by rewrite <- app_assoc.
Qed.

Lemma remainingPosts_nil (feed : list Post) : remainingPosts feed [] = feed.
Proof.
  unfold remainingPosts. induction feed as [|p feed IH]; [done|].
  rewrite filter_cons_True by done. by rewrite IH.
Qed.

Lemma enforceRetention_run (feed : list Post) (photoLimit : Z) (w : World) :
  enforceRetention feed photoLimit w
  = (inr (),
     {| hook := with_posts (published feed photoLimit) (hook w);
        trace := trace w ++ delete_requests (postsToDelete feed photoLimit)
                         ++ [SetPosts (published feed photoLimit)] |}).
Proof.
  unfold enforceRetention, published, postsToDelete.
  repeat case_bool_decide.
  - eff_unfold. rewrite for_of_delete. cbn. by rewrite <- app_assoc.
  - rewrite remainingPosts_nil. eff_unfold. done.
  - rewrite remainingPosts_nil. eff_unfold. done.
Qed.

Lemma id_inj_on (feed : list Post) (p q : Post) :
  NoDup (id <$> feed) → p ∈ feed → q ∈ feed → id p = id q → p = q.
Proof.
  induction feed as [|x feed IH]; intros Hnd Hp Hq Heq.
  - by apply elem_of_nil in Hp.
  - rewrite fmap_cons in Hnd. apply NoDup_cons in Hnd as [Hx Hnd].
    apply elem_of_cons in Hp as [->|Hp], Hq as [->|Hq]; [done| | |by apply IH].
    + exfalso. apply Hx. rewrite Heq. by apply list_elem_of_fmap_2.
    + exfalso. apply Hx. rewrite <- Heq. by apply list_elem_of_fmap_2.
Qed.

Lemma some_id (x : Post) (l : list Post) :
  some (λ p, bool_decide (id p = id x)) l = true ↔ ∃ p, p ∈ l ∧ id p = id x.
Proof.
  unfold some. rewrite existsb_exists. split.
  - intros (p & Hin & Hp). exists p. split; [by apply list_elem_of_In|].
    by apply bool_decide_eq_true in Hp.
  - intros (p & Hin & Hp). exists p. split; [by apply list_elem_of_In|].
    by apply bool_decide_eq_true.
Qed.

Lemma elem_of_remainingPosts (x : Post) (feed removed : list Post) :
  x ∈ remainingPosts feed removed ↔ x ∈ feed ∧ ¬ ∃ p, p ∈ removed ∧ id p = id x.
Proof.
  unfold remainingPosts. rewrite list_elem_of_filter, <- some_id.
  destruct (some _ removed); cbn; intuition (done || discriminate).
Qed.

Lemma remainingPosts_sublist (feed removed : list Post) :
  remainingPosts feed removed `sublist_of` feed.
Proof. apply sublist_filter. Qed.

(** With distinct ids, filtering on ids removes the selected posts and
    nothing else. *)
Lemma remainingPosts_split (feed removed : list Post) :
  NoDup (id <$> feed) → NoDup removed → removed ⊆ feed →
  feed ≡ₚ remainingPosts feed removed ++ removed.
Proof.
  intros Hids Hnd Hsub.
  assert (NoDup feed) as Hfeed by by eapply NoDup_fmap_1.
  unfold remainingPosts.
  rewrite <- (filter_app_complement
    (λ post, negb (some (λ p, bool_decide (id p = id post)) removed)) feed) at 1.
  apply Permutation_app_head, NoDup_Permutation; [by apply NoDup_filter | done |].
  intros x. rewrite list_elem_of_filter. split.
  - intros [Hx Hin].
    assert (some (λ p, bool_decide (id p = id x)) removed = true) as Hs.
    { destruct (some _ removed); [done|]. exfalso. by apply Hx. }
    apply some_id in Hs as (p & Hp & Heq).
    by rewrite <- (id_inj_on feed p x Hids (Hsub p Hp) Hin Heq).
  - intros Hx. split; [|by apply Hsub].
    assert (some (λ p, bool_decide (id p = id x)) removed = true) as ->; [|by cbn; auto].
    apply some_id. by exists x.
Qed.

(** ** Retention enforcer *)

Lemma nonFavoritePosts_perm (feed : list Post) :
  nonFavoritePosts feed ≡ₚ filter (λ post, negb (is_favorite post)) feed.
Proof. apply (sort_perm timestamp). Qed.

Lemma nonFavoritePosts_sorted (feed : list Post) : oldest_first (nonFavoritePosts feed).
Proof. apply (sort_sorted timestamp). Qed.

Lemma postsToDelete_fits (feed : list Post) (photoLimit : Z) :
  Z.of_nat (length feed) ≤ photoLimit → postsToDelete feed photoLimit = [].
Proof. intros. unfold postsToDelete. rewrite bool_decide_eq_false_2; [done | lia]. Qed.

Lemma postsToDelete_favorites (feed : list Post) (photoLimit : Z) :
  Z.of_nat (length (nonFavoritePosts feed)) < Z.of_nat (length feed) - photoLimit →
  postsToDelete feed photoLimit = [].
Proof.
  intros. unfold postsToDelete, postsToRemove.
  case_bool_decide; [|done]. rewrite bool_decide_eq_false_2; [done | lia].
Qed.

Lemma postsToDelete_excess (feed : list Post) (photoLimit : Z) :
  Z.of_nat (length feed) - photoLimit > 0 →
  Z.of_nat (length (nonFavoritePosts feed)) >= Z.of_nat (length feed) - photoLimit →
  postsToDelete feed photoLimit
  = take (Z.to_nat (Z.of_nat (length feed) - photoLimit)) (nonFavoritePosts feed).
Proof.
  intros. unfold postsToDelete, postsToRemove.
  rewrite !bool_decide_eq_true_2 by lia. apply slice0_take. lia.
Qed.

Lemma deleted_ids_app (t1 t2 : list Event) :
  deleted_ids (t1 ++ t2) = (deleted_ids t1 ++ deleted_ids t2)%list.
Proof. apply omap_app. Qed.

Lemma deleted_ids_requests (l : list Post) : deleted_ids (delete_requests l) = id <$> l.
Proof. induction l as [|p l IH]; [done|]. cbn. by rewrite <- IH. Qed.

(** A hydration whose three reads succeed: the outcome in full. *)
Lemma fetchPosts_ok (be : Backend) (fam uid : string) (v : JsVal)
    (data : option (list PostRow)) (w : World) :
  auth_getUser be = Some uid →
  families_select be fam = inr v →
  posts_select be fam = inr data →
  let feed := default [] (fmap (M := list) (processPost fam uid) <$> data) in
  let photoLimit := js_or v 30 in
  fetchPosts be fam w
  = (inr (),
     {| hook := {| posts := published feed photoLimit; loading := false;
                   error := error (hook w) |};
        trace := trace w ++ delete_requests (postsToDelete feed photoLimit)
                         ++ [SetPosts (published feed photoLimit); SetLoading false] |}).
Proof.
  intros Hu Hf Hp feed photoLimit. unfold fetchPosts.
  eff_unfold. rewrite Hu, Hf, Hp. fold feed photoLimit.
  rewrite enforceRetention_run. cbn.
  by rewrite <- !app_assoc.
Qed.

Lemma fetchPosts_failed (be : Backend) (fam : string) (e : Thrown) (w : World) :
  fetch_failure be fam = Some e →
  let msg := message_or "Failed to load posts" e in
  fetchPosts be fam w
  = (inr (),
     {| hook := {| posts := posts (hook w); loading := false; error := Some msg |};
        trace := trace w ++ [SetError msg; SetLoading false] |}).
Proof.
  unfold fetch_failure, fetchPosts. eff_unfold.
  destruct (auth_getUser be); [destruct (families_select be fam);
    [|destruct (posts_select be fam)]|]; intros [= <-]; cbn;
    by rewrite <- !app_assoc.
Qed.

(** C1. A hydration that reads a newest-first feed with distinct ids:
    when the feed fits the limit nothing is deleted and the whole feed is
    published; when it exceeds the limit by [excess] and at least [excess]
    posts are not favourites, exactly [excess] deletions are requested, all
    of non-favourite posts of the feed, listed oldest first, none more
    recent than a non-favourite that is kept; the published feed is the
    input without exactly those posts, in its original newest-first
    order. *)
Theorem retention_postcondition (be : Backend) (fam uid : string) (v : JsVal)
    (data : option (list PostRow)) (h : HookState) :
  auth_getUser be = Some uid →
  families_select be fam = inr v →
  posts_select be fam = inr data →
  let feed := default [] (fmap (M := list) (processPost fam uid) <$> data) in
  let limit := js_or v 30 in
  let count := Z.of_nat (length feed) in
  let non_favorites := filter (λ post, negb (is_favorite post)) feed in
  let w := (fetchPosts be fam (fresh h)).2 in
  NoDup (id <$> feed) →
  newest_first feed →
  (count ≤ limit → deleted_ids (trace w) = [] ∧ posts (hook w) = feed)
  ∧ (count - limit > 0 → Z.of_nat (length non_favorites) >= count - limit →
     ∃ removed : list Post,
       deleted_ids (trace w) = id <$> removed
       ∧ Z.of_nat (length removed) = count - limit
       ∧ removed ⊆ non_favorites
       ∧ oldest_first removed
       ∧ (∀ d p, d ∈ removed → p ∈ non_favorites → p ∉ removed →
            timestamp d ≤ timestamp p)
       ∧ posts (hook w) `sublist_of` feed
       ∧ feed ≡ₚ posts (hook w) ++ removed
       ∧ newest_first (posts (hook w))).
Proof.
  intros Hu Hf Hp feed limit count non_favorites w Hids Hnew.
  subst w. rewrite (fetchPosts_ok be fam uid v data _ Hu Hf Hp).
  fold feed limit. cbn [snd hook trace posts fresh app].
  rewrite deleted_ids_app, deleted_ids_requests. cbn [deleted_ids omap]. 
  rewrite app_nil_r. unfold published. split.
  - intros Hfit. rewrite postsToDelete_fits by done.
    by rewrite remainingPosts_nil.
  - intros Hex Hnf.
    assert (length (nonFavoritePosts feed) = length non_favorites) as Hlen
      by by rewrite nonFavoritePosts_perm.
    rewrite postsToDelete_excess by (fold count; lia).
    fold count. set (k := Z.to_nat (count - limit)).
    set (removed := take k (nonFavoritePosts feed)).
    assert (NoDup feed) as Hfeed by by eapply NoDup_fmap_1.
    assert (NoDup (nonFavoritePosts feed)) as Hsnd.
    { rewrite nonFavoritePosts_perm. by apply NoDup_filter. }
    assert (removed ⊆ non_favorites) as Hsub.
    { intros x Hx. unfold non_favorites. rewrite <- nonFavoritePosts_perm.
      eapply elem_of_sublist; [exact Hx | apply sublist_take]. }
    exists removed. repeat split.
    + unfold removed. rewrite length_take_le; lia.
    + done.
    + eapply StronglySorted_sublist; [apply sublist_take | apply nonFavoritePosts_sorted].
    + intros d p Hd Hpn Hpr.
      eapply (take_sorted_below (λ a b, timestamp a ≤ timestamp b) k
                (nonFavoritePosts feed) d p);
        [apply nonFavoritePosts_sorted | done | | done].
      by rewrite nonFavoritePosts_perm.
    + apply remainingPosts_sublist.
    + apply remainingPosts_split; [done | |].
      * exact (sublist_NoDup _ _ Hsnd (sublist_take _ _)).
      * intros x Hx. apply Hsub in Hx. by apply list_elem_of_filter in Hx as [_ ?].
    + eapply StronglySorted_sublist; [apply remainingPosts_sublist | done].
Qed.

Ltac by_computation := apply (bool_decide_unpack _); vm_compute; exact I.

Lemma retention_postcondition_witness :
  let be := sampleBackend (JsNumber 2) (sampleRows false) in
  let feed := sampleFeed false in
  let w := (fetchPosts be "f" (fresh initialState)).2 in
  (NoDup (id <$> feed) ∧ newest_first feed)
  ∧ ∃ removed : list Post,
      deleted_ids (trace w) = id <$> removed
      ∧ Z.of_nat (length removed) = 4 - 2
      ∧ removed ⊆ filter (λ post, negb (is_favorite post)) feed
      ∧ oldest_first removed
      ∧ (∀ d p, d ∈ removed → p ∈ filter (λ post, negb (is_favorite post)) feed →
           p ∉ removed → timestamp d ≤ timestamp p)
      ∧ posts (hook w) `sublist_of` feed
      ∧ feed ≡ₚ posts (hook w) ++ removed
      ∧ newest_first (posts (hook w)).
Proof.
  intros be feed w.
  assert (NoDup (id <$> feed)) as Hids by by_computation.
  assert (newest_first feed) as Hnew by by_computation.
  split; [done|].
  destruct (retention_postcondition be "f" "A" (JsNumber 2) (Some (sampleRows false))
              initialState eq_refl eq_refl eq_refl Hids Hnew) as [_ Hexcess].
  apply Hexcess; vm_compute; congruence.
Defined.

(** The scenario of four posts and a limit of two: the two oldest go; with
    the oldest a favourite, the next two go instead. *)
Example retention_scenario :
  let run fav := (fetchPosts (sampleBackend (JsNumber 2) (sampleRows fav)) "f"
                    (fresh initialState)).2 in
  deleted_ids (trace (run false)) = ["p1"; "p2"]
  ∧ id <$> posts (hook (run false)) = ["p4"; "p3"]
  ∧ deleted_ids (trace (run true)) = ["p2"; "p3"]
  ∧ id <$> posts (hook (run true)) = ["p4"; "p1"].
Proof. vm_compute. done. Qed.

(** ** Favourites *)

Lemma length_favorites (feed : list Post) :
  (length (filter (λ post, negb (is_favorite post)) feed)
   + length (filter (λ post, Is_true (is_favorite post)) feed))%nat = length feed.
Proof.
  induction feed as [|p feed IH]; [done|].
  rewrite !filter_cons.
  repeat case_decide; destruct (is_favorite p); cbn in *; try done; lia.
Qed.

(** C2. When fewer posts are non-favourites than the feed exceeds the limit
    by, which is to say when the favourites alone outnumber the limit, the
    hydration requests no deletion at all, not even of the non-favourites
    there are, and publishes every post: the feed stays above the limit. *)
Theorem favorites_inviolable (be : Backend) (fam uid : string) (v : JsVal)
    (data : option (list PostRow)) (h : HookState) :
  auth_getUser be = Some uid →
  families_select be fam = inr v →
  posts_select be fam = inr data →
  let feed := default [] (fmap (M := list) (processPost fam uid) <$> data) in
  let limit := js_or v 30 in
  let count := Z.of_nat (length feed) in
  let non_favorites := filter (λ post, negb (is_favorite post)) feed in
  let favorites := filter (λ post, Is_true (is_favorite post)) feed in
  let w := (fetchPosts be fam (fresh h)).2 in
  (Z.of_nat (length non_favorites) < count - limit ↔ Z.of_nat (length favorites) > limit)
  ∧ (Z.of_nat (length non_favorites) < count - limit →
     trace w = [SetPosts feed; SetLoading false]
     ∧ deleted_ids (trace w) = []
     ∧ posts (hook w) = feed
     ∧ Z.of_nat (length (posts (hook w))) > limit).
Proof.
  intros Hu Hf Hp feed limit count non_favorites favorites w.
  pose proof (length_favorites feed) as Hlen. fold non_favorites favorites in Hlen.
  split; [subst count; lia|]. intros Hfew.
  assert (length (nonFavoritePosts feed) = length non_favorites) as Hsort
    by by rewrite nonFavoritePosts_perm.
  subst w. rewrite (fetchPosts_ok be fam uid v data _ Hu Hf Hp).
  fold feed limit. unfold published.
  rewrite postsToDelete_favorites by (unfold count in *; lia).
  rewrite remainingPosts_nil. cbn. repeat split; subst count; lia.
Qed.

Lemma favorites_inviolable_witness :
  let be := sampleBackend (JsNumber 2) favoriteRows in
  let feed := processPost "f" "A" <$> favoriteRows in
  let w := (fetchPosts be "f" (fresh initialState)).2 in
  Z.of_nat (length (filter (λ post, negb (is_favorite post)) feed)) < 4 - 2
  ∧ trace w = [SetPosts feed; SetLoading false]
  ∧ deleted_ids (trace w) = []
  ∧ posts (hook w) = feed
  ∧ Z.of_nat (length (posts (hook w))) > 2.
Proof.
  intros be feed w.
  assert (Z.of_nat (length (filter (λ post, negb (is_favorite post)) feed)) < 4 - 2)
    as Hfew by (vm_compute; reflexivity).
  split; [done|].
  destruct (favorites_inviolable be "f" "A" (JsNumber 2) (Some favoriteRows)
              initialState eq_refl eq_refl eq_refl) as [_ Hkeep].
  apply Hkeep. exact Hfew.
Defined.

(** ** The stored limit *)

(** A stored limit of 0 on a feed of four: all four stay. *)
Example zero_limit_keeps_feed :
  let w := (fetchPosts (sampleBackend (JsNumber 0) (sampleRows false)) "f"
              (fresh initialState)).2 in
  deleted_ids (trace w) = [] ∧ posts (hook w) = sampleFeed false
  ∧ error (hook w) = None.
Proof. vm_compute. done. Qed.

(** ** Errors of a hydration *)




(** ** Toggling a favourite *)

(** C7, as stated, fails.  With the post present, the backend write is the
    first thing that happens and [setPosts] follows it; when the write is
    refused there is no [setPosts] at all, neither an early one nor a
    reverting one. *)
Lemma toggleFavorite_not_optimistic :
  let feed := sampleFeed false in
  let w := fresh (with_posts feed initialState) in
  let accepting := sampleBackend (JsNumber 30) (sampleRows false) in
  let refusing := with_favorite_answer (Some (OtherValue "refused")) accepting in
  let accepted := toggleFavorite accepting feed "p1" w in
  let refused := toggleFavorite refusing feed "p1" w in
  accepted.1 = inr ()
  ∧ take 1 (trace accepted.2) = [UpdateFavorite "p1" true]
  ∧ local_update_precedes_write (trace accepted.2) = false
  ∧ refused.1 = inl (ErrorObject "Failed to update favorite status")
  ∧ trace refused.2 = [UpdateFavorite "p1" true]
  ∧ local_update_precedes_write (trace refused.2) = false.
Proof. vm_compute. done. Qed.

(** C7, amended.  When the post is not among the rendered posts the call
    throws and nothing happens: no write, no change of state.  When it is,
    the write of the flipped flag goes to the backend first; if it is refused
    the call throws and the hook's state is the one before the call, never
    having been touched; if it is accepted the flip is then applied to every
    post of that id in the current state. *)
Theorem toggleFavorite_contract (be : Backend) (renderedPosts : list Post)
    (postId : string) (w : World) :
  let failed : Thrown + unit := inl (ErrorObject "Failed to update favorite status") in
  let r := toggleFavorite be renderedPosts postId w in
  match List.find (λ p, bool_decide (id p = postId)) renderedPosts with
  | None => r = (failed, w)
  | Some post =>
      let write := UpdateFavorite postId (negb (is_favorite post)) in
      match posts_update_favorite be postId (negb (is_favorite post)) with
      | Some _ => r = (failed, {| hook := hook w; trace := trace w ++ [write] |})
      | None =>
          let flipped :=
            (λ p, if bool_decide (id p = postId) then flip_favorite p else p)
              <$> posts (hook w) in
          r = (inr (), {| hook := with_posts flipped (hook w);
                          trace := trace w ++ [write; SetPosts flipped] |})
      end
  end.
Proof.
  intros failed r. subst r failed. unfold toggleFavorite.
  destruct (List.find _ renderedPosts) as [post|]; eff_unfold; [|done].
  cbn. destruct (posts_update_favorite be postId _); cbn; [done|].
  by rewrite <- app_assoc.
Qed.

(** ** Creating a post *)

(** C8. [createPost] inserts a row whose [streak_count] is the streak
    calculator's result for the stored profile and today's date; it then
    links the families and writes that same streak, with today as
    [last_post_date], to the user.  It returns the row the backend created
    exactly when all three writes are accepted; when the user, the profile
    or any write fails, the caller gets the error "Failed to create post".
    The hook's state is never touched. *)
Theorem createPost_streak_snapshot (be : Backend) (post : NewPost)
    (familyIds : list string) (w : World) :
  let failed : Thrown + PostRow := inl (ErrorObject "Failed to create post") in
  let r := createPost be post familyIds w in
  let did (events : list Event) : World :=
    {| hook := hook w; trace := trace w ++ events |} in
  match auth_getUser be with
  | None => r = (failed, w)
  | Some uid =>
      match users_select be uid with
      | inl _ => r = (failed, w)
      | inr userProfile =>
          let today := isoDate (clock_now be) in
          let streak := newStreakCount userProfile today in
          let row := newPostRow uid userProfile post streak in
          new_streak_count row = streak
          ∧ match posts_insert be row with
            | inl _ => r = (failed, did [InsertPost row])
            | inr newPost =>
                let links := (λ familyId, (row_id newPost, familyId)) <$> familyIds in
                match post_families_insert be links with
                | Some _ => r = (failed, did [InsertPost row; InsertPostFamilies links])
                | None =>
                    let writes := [InsertPost row; InsertPostFamilies links;
                                   UpdateUser uid streak today] in
                    match users_update be uid streak today with
                    | Some _ => r = (failed, did writes)
                    | None => r = (inr newPost, did writes)
                    end
                end
            end
      end
  end.
Proof.
  intros failed r did. subst r failed did. unfold createPost, getUser.
  destruct (auth_getUser be) as [uid|]; eff_unfold; [|done].
  destruct (users_select be uid) as [e|userProfile]; [done|].
  split; [done|]. cbn.
  destruct (posts_insert be _) as [e|newPost]; [done|]. cbn.
  destruct (post_families_insert be _); cbn; [by rewrite <- !app_assoc|].
  destruct (users_update be uid _ _); cbn; by rewrite <- !app_assoc.
Qed.

(** One day after the last post, with a streak of 4: the post and the user
    both get 5, and the user's last post date becomes today. *)
Example createPost_ex :
  let r := createPost (sampleBackend (JsNumber 30) []) sampleDraft ["f"; "g"]
             (fresh initialState) in
  r.1 = inr (mkRow "new" 5 false None)
  ∧ trace r.2
    = [InsertPost (newPostRow "A" sampleProfile sampleDraft 5);
       InsertPostFamilies [("new", "f"); ("new", "g")];
       UpdateUser "A" 5 20000].
Proof. vm_compute. done. Qed.

(** ** Notifications *)

(** C9, as stated, fails.  With one hydration in flight, two notifications
    start two more: three are in flight, and two of them are follow-ups. *)
Lemma notifications_not_coalesced :
  let loading := run (mount (Some "f")) [Effect] in
  let notified := run loading [Notification; Notification] in
  in_flight loading = ["f"]
  ∧ in_flight notified = ["f"; "f"; "f"]
  ∧ ¬ (length (in_flight notified) ≤ 1)%nat
  ∧ ¬ (started notified = started loading + 1)%nat.
Proof. vm_compute. repeat split; try done; lia. Qed.

Lemma run_app (e : Engine) (s1 s2 : list Signal) :
  run e (s1 ++ s2) = run (run e s1) s2.
Proof. apply foldl_app. Qed.

(** C9, amended.  While a family is selected, every change notification
    starts one hydration of its own, whatever is already in flight: [n]
    notifications add [n] running hydrations, and the published state does
    not change until one of them settles. *)
Theorem notification_starts_hydration (e : Engine) (fam : string) (n : nat) :
  familyId e = Some fam →
  let e' := run e (replicate n Notification) in
  familyId e' = Some fam
  ∧ in_flight e' = (in_flight e ++ replicate n fam)%list
  ∧ started e' = (started e + n)%nat
  ∧ state e' = state e.
Proof.
  intros Hfam. induction n as [|n IH]; cbn zeta.
  - cbn. by rewrite app_nil_r, Nat.add_0_r.
  - rewrite replicate_S_end, run_app.
    cbn zeta in IH. destruct IH as (Hf & Hin & Hst & Hstate).
    cbn. rewrite Hf. cbn. rewrite Hin, Hst, Hstate.
    rewrite <- app_assoc. repeat split; [done | | lia].
    f_equal. by rewrite <- replicate_S_end.
Qed.

Lemma notification_starts_hydration_witness :
  let e := run (mount (Some "f")) [Effect] in
  let e' := run e (replicate 2 Notification) in
  familyId e = Some "f"
  ∧ familyId e' = Some "f"
  ∧ in_flight e' = (in_flight e ++ replicate 2 "f")%list
  ∧ started e' = (started e + 2)%nat
  ∧ state e' = state e.
Proof.
  intros e e'. split; [reflexivity|].
  exact (notification_starts_hydration e "f" 2 eq_refl).
Defined.

(** ** Order of the feed *)

Lemma processPost_newest_first (fam uid : string) (rows : list PostRow) :
  StronglySorted (λ a b, row_timestamp b ≤ row_timestamp a) rows →
  newest_first (processPost fam uid <$> rows).
Proof.
  unfold newest_first. induction 1 as [|row rows Hs IH Hrow]; cbn; constructor; [done|].
  apply Forall_fmap. eapply Forall_impl; [exact Hrow|]. by intros.
Qed.

Lemma published_newest_first (feed : list Post) (photoLimit : Z) :
  newest_first feed → newest_first (published feed photoLimit).
Proof. apply StronglySorted_sublist, remainingPosts_sublist. Qed.

Lemma fetch_no_failure (be : Backend) (fam : string) :
  fetch_failure be fam = None →
  ∃ uid v data, auth_getUser be = Some uid ∧ families_select be fam = inr v
                ∧ posts_select be fam = inr data.
Proof.
  unfold fetch_failure.
  destruct (auth_getUser be) as [uid|]; [|done].
  destruct (families_select be fam) as [|v]; [done|].
  destruct (posts_select be fam) as [|data]; [done|].
  intros _. by exists uid, v, data.
Qed.

Lemma fetchPosts_newest_first (be : Backend) (fam : string) (w : World) :
  ordered_backend be → newest_first (posts (hook w)) →
  newest_first (posts (hook (fetchPosts be fam w).2)).
Proof.
  intros Hbe Hw. destruct (fetch_failure be fam) as [e|] eqn:Hfail.
  - by rewrite (fetchPosts_failed be fam e w Hfail).
  - apply fetch_no_failure in Hfail as (uid & v & data & Hu & Hf & Hp).
    rewrite (fetchPosts_ok be fam uid v data w Hu Hf Hp). cbn.
    apply published_newest_first. destruct data as [rows|]; cbn.
    + apply processPost_newest_first. by eapply Hbe.
    + constructor.
Qed.

Lemma flip_newest_first (postId : string) (l : list Post) :
  newest_first l →
  newest_first ((λ p, if bool_decide (id p = postId) then flip_favorite p else p) <$> l).
Proof.
  unfold newest_first. induction 1 as [|p l Hs IH Hp]; cbn; constructor; [done|].
  apply Forall_fmap. eapply Forall_impl; [exact Hp|].
  intros q Hq. cbn. by repeat case_bool_decide.
Qed.

Lemma flip_timestamps (postId : string) (l : list Post) :
  timestamp <$> ((λ p, if bool_decide (id p = postId) then flip_favorite p else p) <$> l)
  = timestamp <$> l.
Proof.
  rewrite <- list_fmap_compose. apply list_fmap_ext.
  intros i p _. cbn. by case_bool_decide.
Qed.

Lemma toggleFavorite_run (be : Backend) (renderedPosts : list Post) (postId : string)
    (w : World) :
  let w' := (toggleFavorite be renderedPosts postId w).2 in
  posts (hook w') = posts (hook w)
  ∨ posts (hook w')
    = (λ p, if bool_decide (id p = postId) then flip_favorite p else p) <$> posts (hook w).
Proof.
  unfold toggleFavorite.
  destruct (List.find _ renderedPosts) as [post|]; eff_unfold; [|by left].
  cbn. destruct (posts_update_favorite be postId _); cbn; [by left | by right].
Qed.

Lemma toggleFavorite_newest_first (be : Backend) (renderedPosts : list Post)
    (postId : string) (w : World) :
  newest_first (posts (hook w)) →
  newest_first (posts (hook (toggleFavorite be renderedPosts postId w).2)).
Proof.
  intros Hw. destruct (toggleFavorite_run be renderedPosts postId w) as [-> | ->];
    [done | by apply flip_newest_first].
Qed.

Lemma step_newest_first (e : Engine) (s : Signal) :
  ordered_signal s → newest_first (posts (hook (state e))) →
  newest_first (posts (hook (state (step e s)))).
Proof.
  intros Hs He. destruct s as [| | |i be|renderedPosts postId be]; cbn.
  1-3: by destruct (familyId e).
  - destruct (in_flight e !! i); [|done]. by apply fetchPosts_newest_first.
  - by apply toggleFavorite_newest_first.
Qed.

Lemma run_newest_first (e : Engine) (signals : list Signal) :
  Forall ordered_signal signals → newest_first (posts (hook (state e))) →
  newest_first (posts (hook (state (run e signals)))).
Proof.
  intros Hs. revert e. induction Hs as [|s signals Hs _ IH]; intros e He; [done|].
  cbn. apply IH. by apply step_newest_first.
Qed.

(** C5. Start from the mounted hook and let effects, notifications,
    refreshes, settling hydrations and favourite toggles happen in any
    order, the backend answering each posts query newest first: the
    published posts are newest first after every one of them.  Eviction
    keeps a subsequence of the processed feed, and toggling a favourite
    leaves the sequence of timestamps as it was. *)
Theorem feed_always_newest_first (fam : option string) (signals : list Signal) :
  Forall ordered_signal signals →
  (∀ n, newest_first (posts (hook (state (run (mount fam) (take n signals))))))
  ∧ (∀ feed photoLimit, published feed photoLimit `sublist_of` feed)
  ∧ (∀ be renderedPosts postId w,
       timestamp <$> posts (hook (toggleFavorite be renderedPosts postId w).2)
       = timestamp <$> posts (hook w)).
Proof.
  intros Hs. repeat split.
  - intros n. apply run_newest_first.
    + by apply Forall_take.
    + constructor.
  - intros. apply remainingPosts_sublist.
  - intros be renderedPosts postId w.
    destruct (toggleFavorite_run be renderedPosts postId w) as [-> | ->];
      [done | apply flip_timestamps].
Qed.

Lemma sampleBackend_ordered (limit : JsVal) :
  ordered_backend (sampleBackend limit (sampleRows false)).
Proof.
  intros fam rows [= <-]. by_computation.
Defined.

Lemma feed_always_newest_first_witness :
  let be := sampleBackend (JsNumber 2) (sampleRows false) in
  let signals := [Effect; Notification; Settle 0 be; Toggle [] "p4" be;
                  Toggle (sampleFeed false) "p4" be; Settle 0 be] in
  Forall ordered_signal signals
  ∧ newest_first (posts (hook (state (run (mount (Some "f")) (take 6 signals))))).
Proof.
  intros be signals.
  assert (Forall ordered_signal signals) as Hs.
  { repeat constructor; apply sampleBackend_ordered. }
  split; [exact Hs|].
  exact (proj1 (feed_always_newest_first (Some "f") signals Hs) 6%nat).
Defined.

Example engine_ex :
  let be := sampleBackend (JsNumber 2) (sampleRows false) in
  let e := run (mount (Some "f"))
             [Effect; Settle 0 be; Toggle (sampleFeed false) "p4" be] in
  (λ p, (id p, is_favorite p)) <$> posts (hook (state e))
  = [("p4", true); ("p3", false)].
Proof. vm_compute. done. Qed.

(** * Further properties of the hook *)

(** ** What a hydration does to the state, whatever the backend answers *)

Lemma added_app (w : World) (h : HookState) (events : list Event) :
  added w {| hook := h; trace := trace w ++ events |} = events.
Proof. unfold added. cbn. by rewrite drop_app_length. Qed.

(** [fetchPosts] never rejects and always ends with [loading] false.  It
    either reports an error and leaves the posts alone, without a single
    backend write, or publishes once, after its deletions, and leaves the
    error message alone: never both. *)
Theorem fetchPosts_settles (be : Backend) (fam : string) (w : World) :
  let r := fetchPosts be fam w in
  r.1 = inr ()
  ∧ loading (hook r.2) = false
  ∧ ((∃ msg, added w r.2 = [SetError msg; SetLoading false]
            ∧ error (hook r.2) = Some msg
            ∧ posts (hook r.2) = posts (hook w))
     ∨ (∃ removed, added w r.2
                   = (delete_requests removed
                      ++ [SetPosts (posts (hook r.2)); SetLoading false])%list
                 ∧ error (hook r.2) = error (hook w))).
Proof.
  cbn zeta. destruct (fetch_failure be fam) as [e|] eqn:Hfail.
  - rewrite (fetchPosts_failed be fam e w Hfail). cbn. repeat split.
    left. eexists. by rewrite added_app.
  - apply fetch_no_failure in Hfail as (uid & v & data & Hu & Hf & Hp).
    rewrite (fetchPosts_ok be fam uid v data w Hu Hf Hp). cbn. repeat split.
    right. eexists. by rewrite added_app.
Qed.

(** ** Lists: what a filter on ids leaves *)

Lemma filter_Forall_id {A} (Q : A → Prop) `{!∀ x, Decision (Q x)} (l : list A) :
  Forall Q l → filter Q l = l.
Proof.
  induction 1 as [|x l Hx _ IH]; [done|]. by rewrite filter_cons_True, IH.
Qed.

Lemma length_filter_submseteq {A} (Q : A → Prop) `{!∀ x, Decision (Q x)}
    (l1 l2 : list A) :
  l1 ⊆+ l2 → Forall Q l1 → (length l1 ≤ length (filter Q l2))%nat.
Proof.
  intros Hsub HQ. apply submseteq_Permutation in Hsub as [k Hk].
  rewrite Hk, filter_app, length_app, (filter_Forall_id Q l1 HQ). lia.
Qed.

Lemma postsToDelete_sublist (feed : list Post) (photoLimit : Z) :
  postsToDelete feed photoLimit `sublist_of` nonFavoritePosts feed.
Proof.
  unfold postsToDelete, slice0.
  repeat case_bool_decide; try apply sublist_nil_l; apply sublist_take.
Qed.

Lemma postsToDelete_submseteq (feed : list Post) (photoLimit : Z) :
  postsToDelete feed photoLimit ⊆+ feed.
Proof.
  transitivity (nonFavoritePosts feed).
  - apply sublist_submseteq, postsToDelete_sublist.
  - rewrite nonFavoritePosts_perm. apply sublist_submseteq, sublist_filter.
Qed.

Lemma postsToDelete_non_favorite (feed : list Post) (photoLimit : Z) (p : Post) :
  p ∈ postsToDelete feed photoLimit → p ∈ feed ∧ is_favorite p = false.
Proof.
  intros Hp. eapply elem_of_sublist in Hp; [|apply postsToDelete_sublist].
  rewrite nonFavoritePosts_perm in Hp. apply list_elem_of_filter in Hp as [Hf Hp].
  split; [done|]. by destruct (is_favorite p).
Qed.

(** Either nothing is selected, or exactly the excess. *)
Lemma postsToDelete_length (feed : list Post) (photoLimit : Z) :
  postsToDelete feed photoLimit = []
  ∨ (Z.of_nat (length feed) - photoLimit > 0
     ∧ Z.of_nat (length (postsToDelete feed photoLimit))
       = Z.of_nat (length feed) - photoLimit).
Proof.
  unfold postsToDelete, postsToRemove. repeat case_bool_decide; [|by left..].
  right. split; [lia|]. rewrite slice0_take by lia. rewrite length_take_le; lia.
Qed.

(** The published feed and the selected posts fit in the feed together. *)
Lemma published_length (feed : list Post) (photoLimit : Z) :
  (length (published feed photoLimit) + length (postsToDelete feed photoLimit)
   ≤ length feed)%nat.
Proof.
  unfold published, remainingPosts.
  set (removed := postsToDelete feed photoLimit).
  set (kept := λ post : Post,
         Is_true (negb (some (λ p, bool_decide (id p = id post)) removed))).
  pose proof (filter_app_complement kept feed) as Hsplit.
  apply Permutation_length in Hsplit. rewrite length_app in Hsplit.
  assert (length removed ≤ length (filter (λ x, ¬ kept x) feed))%nat; [|lia].
  apply length_filter_submseteq; [apply postsToDelete_submseteq|].
  apply Forall_forall. intros x Hx. unfold kept.
  assert (some (λ p, bool_decide (id p = id x)) removed = true) as ->; [|by cbn; auto].
  apply some_id. by exists x.
Qed.

Lemma published_no_deletion (feed : list Post) (photoLimit : Z) :
  postsToDelete feed photoLimit = [] → published feed photoLimit = feed.
Proof. unfold published. intros ->. apply remainingPosts_nil. Qed.

(** ** A hydration whose three reads succeed *)

Section hydration.
Context (be : Backend) (fam uid : string) (v : JsVal) (data : option (list PostRow)).
Hypothesis (Huser : auth_getUser be = Some uid).
Hypothesis (Hfamily : families_select be fam = inr v).
Hypothesis (Hposts : posts_select be fam = inr data).

Let feed : list Post := default [] (fmap (M := list) (processPost fam uid) <$> data).
Let limit : Z := js_or v 30.
Let count : Z := Z.of_nat (length feed).

Lemma hydration_run (w : World) :
  (fetchPosts be fam w).2
  = {| hook := {| posts := published feed limit; loading := false;
                  error := error (hook w) |};
       trace := trace w ++ delete_requests (postsToDelete feed limit)
                        ++ [SetPosts (published feed limit); SetLoading false] |}.
Proof. by rewrite (fetchPosts_ok be fam uid v data w Huser Hfamily Hposts). Qed.

Lemma hydration_deleted (w : World) :
  deleted_ids (added w (fetchPosts be fam w).2) = id <$> postsToDelete feed limit.
Proof.
  rewrite hydration_run, added_app, deleted_ids_app, deleted_ids_requests.
  cbn. by rewrite app_nil_r.
Qed.

(** After a hydration the published feed holds at most [limit] posts,
    unless the favourites alone outnumber the limit, in which case it holds
    the whole feed. *)
Theorem hydration_capacity (w : World) :
  let w' := (fetchPosts be fam w).2 in
  Z.of_nat (length (posts (hook w'))) ≤ limit
  ∨ (Z.of_nat (length (filter (λ post, Is_true (is_favorite post)) feed)) > limit
     ∧ posts (hook w') = feed).
Proof.
  cbn zeta. rewrite hydration_run. cbn [hook posts].
  pose proof (published_length feed limit) as Hfit.
  pose proof (length_favorites feed) as Hfav.
  assert (length (nonFavoritePosts feed)
          = length (filter (λ post, negb (is_favorite post)) feed)) as Hsort
    by by rewrite nonFavoritePosts_perm.
  destruct (decide (count ≤ limit)) as [Hle|Hgt].
  { left. rewrite published_no_deletion by by apply postsToDelete_fits. done. }
  destruct (decide (Z.of_nat (length (nonFavoritePosts feed)) >= count - limit))
    as [Henough|Hfew].
  - left. rewrite postsToDelete_excess in Hfit by (unfold count in *; lia).
    rewrite length_take_le in Hfit by (unfold count in *; lia).
    unfold count in *. lia.
  - right. rewrite published_no_deletion
      by (apply postsToDelete_favorites; unfold count in *; lia).
    split; [unfold count in *; lia | done].
Qed.

(** A hydration only asks for the deletion of posts of the feed that are
    not favourites, and of none or of exactly as many as the feed exceeds
    the limit by.  When ids are distinct every favourite of the feed is
    published. *)
Theorem hydration_spares_favorites (w : World) :
  let w' := (fetchPosts be fam w).2 in
  (∃ removed : list Post,
     deleted_ids (added w w') = id <$> removed
     ∧ (∀ p, p ∈ removed → p ∈ feed ∧ is_favorite p = false)
     ∧ (removed = [] ∨ Z.of_nat (length removed) = count - limit))
  ∧ (NoDup (id <$> feed) →
     ∀ p, p ∈ feed → is_favorite p = true → p ∈ posts (hook w')).
Proof.
  cbn zeta. split.
  - exists (postsToDelete feed limit). split; [apply hydration_deleted|]. split.
    + apply postsToDelete_non_favorite.
    + destruct (postsToDelete_length feed limit) as [?|[_ ?]]; [by left | by right].
  - intros Hids p Hp Hfav. rewrite hydration_run. cbn [hook posts].
    apply elem_of_remainingPosts. split; [done|]. intros (q & Hq & Heq).
    apply postsToDelete_non_favorite in Hq as [Hq Hqf].
    rewrite (id_inj_on feed q p Hids Hq Hp Heq) in Hqf. congruence.
Qed.

(** Eviction is done in one pass: when the backend then returns the posts
    that were published, under the same limit, the next hydration deletes
    nothing and publishes the same feed. *)
Theorem hydration_converges (be' : Backend) (data' : option (list PostRow)) (w : World) :
  let w1 := (fetchPosts be fam w).2 in
  let w2 := (fetchPosts be' fam w1).2 in
  auth_getUser be' = Some uid →
  families_select be' fam = inr v →
  posts_select be' fam = inr data' →
  default [] (fmap (M := list) (processPost fam uid) <$> data') = posts (hook w1) →
  deleted_ids (added w1 w2) = [] ∧ posts (hook w2) = posts (hook w1).
Proof.
  cbn zeta. intros Hu' Hf' Hp' Hsame.
  rewrite (fetchPosts_ok be' fam uid v data' _ Hu' Hf' Hp'), Hsame. cbn [snd].
  rewrite added_app, deleted_ids_app, deleted_ids_requests.
  rewrite hydration_run. cbn [hook posts snd]. fold limit.
  assert (postsToDelete (published feed limit) limit = []) as Hnone.
  { pose proof (published_length feed limit) as Hfit.
    destruct (postsToDelete_length feed limit) as [Hnil|[Hex Hlen]].
    - rewrite (published_no_deletion _ _ Hnil). exact Hnil.
    - apply postsToDelete_fits. lia. }
  rewrite Hnone. split; [done|]. by apply published_no_deletion.
Qed.

(** A negative stored limit, or a query that returns no rows, never evicts:
    the feed is published as it is. *)
Theorem hydration_without_eviction (w : World) :
  let w' := (fetchPosts be fam w).2 in
  (∃ z, v = JsNumber z ∧ z < 0) ∨ data = None ∨ data = Some [] →
  deleted_ids (added w w') = [] ∧ posts (hook w') = feed.
Proof.
  cbn zeta. intros Hcase.
  assert (postsToDelete feed limit = []) as Hnone.
  { destruct Hcase as [(z & -> & Hz)|Hempty].
    - apply postsToDelete_favorites.
      assert (limit = z) as -> by (unfold limit; cbn; by rewrite bool_decide_eq_false_2 by lia).
      assert (length (nonFavoritePosts feed) ≤ length feed)%nat; [|lia].
      rewrite nonFavoritePosts_perm. apply length_filter.
    - assert (feed = []) as -> by (by destruct Hempty as [-> | ->]).
      unfold postsToDelete, nonFavoritePosts, postsToRemove, slice0. cbn.
      repeat case_bool_decide; try done; by rewrite take_nil. }
  rewrite hydration_deleted, hydration_run, Hnone. cbn [hook posts].
  split; [done|]. by apply published_no_deletion.
Qed.

End hydration.

Lemma hydration_capacity_witness :
  let be := sampleBackend (JsNumber 2) (sampleRows false) in
  let w' := (fetchPosts be "f" (fresh initialState)).2 in
  families_select be "f" = inr (JsNumber 2)
  ∧ (Z.of_nat (length (posts (hook w'))) ≤ 2
     ∨ (Z.of_nat (length (filter (λ post, Is_true (is_favorite post)) (sampleFeed false))) > 2
        ∧ posts (hook w') = sampleFeed false)).
Proof.
  intros be w'. split; [reflexivity|].
  exact (hydration_capacity be "f" "A" (JsNumber 2) (Some (sampleRows false))
           eq_refl eq_refl eq_refl (fresh initialState)).
Defined.

Lemma hydration_spares_favorites_witness :
  let be := sampleBackend (JsNumber 2) (sampleRows true) in
  let w' := (fetchPosts be "f" (fresh initialState)).2 in
  let favorite := processPost "f" "A" (mkRow "p1" 1 true None) in
  NoDup (id <$> sampleFeed true)
  ∧ favorite ∈ sampleFeed true
  ∧ favorite ∈ posts (hook w').
Proof.
  intros be w' favorite.
  assert (NoDup (id <$> sampleFeed true)) as Hids by by_computation.
  assert (favorite ∈ sampleFeed true) as Hin.
  { unfold sampleFeed, sampleRows. apply list_elem_of_fmap_2.
    rewrite !elem_of_cons. do 3 right. by left. }
  repeat split; [done..|].
  exact (proj2 (hydration_spares_favorites be "f" "A" (JsNumber 2)
                  (Some (sampleRows true)) eq_refl eq_refl eq_refl
                  (fresh initialState)) Hids favorite Hin eq_refl).
Defined.

Lemma hydration_converges_witness :
  let be := sampleBackend (JsNumber 2) (sampleRows false) in
  let be' := sampleBackend (JsNumber 2) (take 2 (sampleRows false)) in
  let w1 := (fetchPosts be "f" (fresh initialState)).2 in
  let w2 := (fetchPosts be' "f" w1).2 in
  processPost "f" "A" <$> take 2 (sampleRows false) = posts (hook w1)
  ∧ deleted_ids (added w1 w2) = []
  ∧ posts (hook w2) = posts (hook w1).
Proof.
  intros be be' w1 w2.
  assert (processPost "f" "A" <$> take 2 (sampleRows false) = posts (hook w1)) as Hsame
    by (vm_compute; reflexivity).
  split; [exact Hsame|].
  exact (hydration_converges be "f" "A" (JsNumber 2) (Some (sampleRows false))
           eq_refl eq_refl eq_refl be' (Some (take 2 (sampleRows false)))
           (fresh initialState) eq_refl eq_refl eq_refl Hsame).
Defined.

Lemma hydration_without_eviction_witness :
  let be := sampleBackend (JsNumber (-1)) (sampleRows false) in
  let w' := (fetchPosts be "f" (fresh initialState)).2 in
  -1 < 0
  ∧ deleted_ids (added (fresh initialState) w') = []
  ∧ posts (hook w') = sampleFeed false.
Proof.
  intros be w'. split; [lia|].
  apply (hydration_without_eviction be "f" "A" (JsNumber (-1)) (Some (sampleRows false))
           eq_refl eq_refl eq_refl (fresh initialState)).
  left. exists (-1). split; [reflexivity | lia].
Defined.

(** ** The viewer does not matter to eviction *)

Lemma same_row_fields (p q : Post) :
  same_row p q →
  id p = id q ∧ timestamp p = timestamp q ∧ is_favorite p = is_favorite q.
Proof. unfold same_row. by intros ->. Qed.

Lemma same_row_ids (l k : list Post) : Forall2 same_row l k → id <$> l = id <$> k.
Proof.
  induction 1 as [|p q l k Hpq _ IH]; [done|].
  cbn. f_equal; [by apply same_row_fields in Hpq as (? & _)|done].
Qed.

Lemma processPost_same_row (fam uid uid' : string) (rows : list PostRow) :
  Forall2 same_row (processPost fam uid <$> rows) (processPost fam uid' <$> rows).
Proof. induction rows as [|row rows IH]; cbn; by constructor. Qed.

Lemma filter_same_row (l k : list Post) :
  Forall2 same_row l k →
  Forall2 same_row (filter (λ post, negb (is_favorite post)) l)
                   (filter (λ post, negb (is_favorite post)) k).
Proof.
  induction 1 as [|p q l k Hpq _ IH]; [constructor|].
  pose proof (same_row_fields p q Hpq) as (_ & _ & Hfav).
  rewrite !filter_cons, Hfav. case_decide; [by constructor | done].
Qed.

Lemma sort_insert_same_row (p q : Post) (l k : list Post) :
  same_row p q → Forall2 same_row l k →
  Forall2 same_row (sort_insert by_timestamp p l) (sort_insert by_timestamp q k).
Proof.
  intros Hpq. pose proof (same_row_fields p q Hpq) as (_ & Hts & _).
  induction 1 as [|x y l k Hxy Hlk IH]; cbn; [by repeat constructor|].
  pose proof (same_row_fields x y Hxy) as (_ & Hts' & _).
  unfold by_timestamp. rewrite Hts, Hts'.
  case_bool_decide; repeat constructor; done.
Qed.

Lemma sort_same_row (l k : list Post) :
  Forall2 same_row l k →
  Forall2 same_row (sort by_timestamp l) (sort by_timestamp k).
Proof.
  induction 1 as [|p q l k Hpq _ IH]; cbn; [constructor|].
  by apply sort_insert_same_row.
Qed.

Lemma postsToDelete_same_row (l k : list Post) (photoLimit : Z) :
  Forall2 same_row l k →
  Forall2 same_row (postsToDelete l photoLimit) (postsToDelete k photoLimit).
Proof.
  intros Hlk.
  assert (Forall2 same_row (nonFavoritePosts l) (nonFavoritePosts k)) as Hnf
    by by apply sort_same_row, filter_same_row.
  unfold postsToDelete, postsToRemove, slice0.
  rewrite (Forall2_length _ _ _ Hlk), (Forall2_length _ _ _ Hnf).
  repeat case_bool_decide; try constructor; by apply Forall2_take.
Qed.

Lemma some_same_ids (x y : Post) (l k : list Post) :
  id x = id y → id <$> l = id <$> k →
  some (λ p, bool_decide (id p = id x)) l = some (λ p, bool_decide (id p = id y)) k.
Proof.
  intros Hxy. revert k. induction l as [|p l IH]; intros [|q k] Hids;
    try discriminate; [done|].
  rewrite !fmap_cons in Hids. injection Hids as Hpq Hlk.
  specialize (IH k Hlk). unfold some in *. cbn. by rewrite IH, Hxy, Hpq.
Qed.

Lemma remainingPosts_same_row (l k removed removed' : list Post) :
  Forall2 same_row l k → id <$> removed = id <$> removed' →
  Forall2 same_row (remainingPosts l removed) (remainingPosts k removed').
Proof.
  intros Hlk Hids. unfold remainingPosts.
  induction Hlk as [|p q l k Hpq _ IH]; [constructor|].
  pose proof (same_row_fields p q Hpq) as (Hid & _ & _).
  rewrite !filter_cons, (some_same_ids p q removed removed' Hid Hids).
  case_decide; [by constructor | done].
Qed.

(** Two users hydrating the same rows under the same limit ask for the same
    deletions and publish the same posts, which differ in [user_has_liked]
    at most. *)
Theorem hydration_viewer_independent (be : Backend) (fam uid uid' : string) (v : JsVal)
    (data : option (list PostRow)) (w w' : World) :
  auth_getUser be = Some uid →
  families_select be fam = inr v →
  posts_select be fam = inr data →
  let mine := (fetchPosts be fam w).2 in
  let theirs := (fetchPosts (with_auth (Some uid') be) fam w').2 in
  deleted_ids (added w mine) = deleted_ids (added w' theirs)
  ∧ Forall2 same_row (posts (hook mine)) (posts (hook theirs)).
Proof.
  intros Hu Hf Hp. cbn zeta.
  rewrite (hydration_deleted be fam uid v data Hu Hf Hp).
  rewrite (hydration_deleted (with_auth (Some uid') be) fam uid' v data
             eq_refl Hf Hp).
  rewrite (hydration_run be fam uid v data Hu Hf Hp).
  rewrite (hydration_run (with_auth (Some uid') be) fam uid' v data eq_refl Hf Hp).
  cbn [hook posts].
  set (feed := default [] (fmap (M := list) (processPost fam uid) <$> data)).
  set (feed' := default [] (fmap (M := list) (processPost fam uid') <$> data)).
  assert (Forall2 same_row feed feed') as Hfeed.
  { subst feed feed'. destruct data as [rows|]; cbn; [|constructor].
    apply processPost_same_row. }
  pose proof (postsToDelete_same_row feed feed' (js_or v 30) Hfeed) as Hdel.
  split; [by apply same_row_ids|].
  apply remainingPosts_same_row; [done | by apply same_row_ids].
Qed.

Lemma hydration_viewer_independent_witness :
  let be := sampleBackend (JsNumber 2) (sampleRows true) in
  let mine := (fetchPosts be "f" (fresh initialState)).2 in
  let theirs := (fetchPosts (with_auth (Some "B") be) "f" (fresh initialState)).2 in
  auth_getUser be = Some "A"
  ∧ deleted_ids (added (fresh initialState) mine)
    = deleted_ids (added (fresh initialState) theirs)
  ∧ Forall2 same_row (posts (hook mine)) (posts (hook theirs)).
Proof.
  intros be mine theirs. split; [reflexivity|].
  exact (hydration_viewer_independent be "f" "A" "B" (JsNumber 2)
           (Some (sampleRows true)) (fresh initialState) (fresh initialState)
           eq_refl eq_refl eq_refl).
Defined.

(** ** More on the aggregates *)

Lemma kinds_partition (rs : list Reaction) :
  (length (filter (λ r, reaction_type r = "LIKE") rs)
   + length (filter (λ r, reaction_type r = "COMMENT") rs)
   + length (filter (λ r, reaction_type r = "SLIDESHOW") rs)
   ≤ length rs)%nat.
Proof.
  induction rs as [|r rs IH]; [done|].
  rewrite !filter_cons. repeat case_decide; cbn; try lia; congruence.
Qed.

(** The three derived lists of a post never hold a reaction twice: the
    likes, the comments and the slideshow reactions together are at most the
    post's reactions.  A post the viewer has liked has at least one like. *)
Theorem processPost_counts_bounded (fam uid : string) (row : PostRow) :
  let p := processPost fam uid row in
  (likes_count p + comments_count p + length (elderly_reactions p)
   ≤ length (reactions p))%nat
  ∧ (user_has_liked p = true → 1 ≤ likes_count p)%nat.
Proof.
  cbn zeta. unfold processPost. cbn. split; [apply kinds_partition|].
  intros Hliked. apply some_liked in Hliked as (r & Hin & Hkind & _).
  assert (r ∈ filter (λ r, reaction_type r = "LIKE") (default [] (row_reactions row)))
    as Hr by by apply list_elem_of_filter.
  destruct (filter _ _); [by apply elem_of_nil in Hr | cbn; lia].
Qed.

Lemma processPost_counts_bounded_witness :
  let row := mkRow "p" 5 false
               (Some [mkReaction "1" "A" "LIKE"; mkReaction "2" "B" "WOW"]) in
  let p := processPost "f" "A" row in
  user_has_liked p = true ∧ (1 ≤ likes_count p)%nat.
Proof.
  intros row p. split; [reflexivity|].
  exact (proj2 (processPost_counts_bounded "f" "A" row) eq_refl).
Defined.

(** ** More on the streak *)

Lemma newStreakCount_stored (p : UserProfile) (streak last day : Z) :
  newStreakCount (stored_profile p streak last) day
  = if bool_decide (day - last = 1) then streak + 1
    else if bool_decide (day - last = 0) then streak else 1.
Proof.
  unfold newStreakCount, stored_profile. cbn.
  by rewrite isoDate_dateTime, days_between.
Qed.

(** After a post has been recorded, a second post on the same day carries
    the same streak, a post on the next day carries one more, and a post on
    any other day starts again at 1. *)
Theorem streak_after_post (p : UserProfile) (today : Z) :
  let streak := newStreakCount p today in
  let p' := stored_profile p streak today in
  newStreakCount p' today = streak
  ∧ newStreakCount p' (today + 1) = streak + 1
  ∧ (∀ day, day ≠ today → day ≠ today + 1 → newStreakCount p' day = 1).
Proof.
  cbn zeta. repeat split; intros; rewrite newStreakCount_stored;
    repeat case_bool_decide; lia.
Qed.

Lemma after_posts_bounds (p : UserProfile) (days : list Z) (last k : Z) :
  last_post_date p = Some (dateTime last) →
  1 ≤ profile_streak_count p ≤ k →
  1 ≤ profile_streak_count (after_posts p days) ≤ k + Z.of_nat (length days).
Proof.
  revert p last k. induction days as [|day days IH]; intros p last k Hlast Hk.
  - cbn. lia.
  - cbn [after_posts foldl]. fold (after_posts (stored_profile p (newStreakCount p day) day) days).
    cbn [length]. replace (k + Z.of_nat (S (length days)))
      with ((k + 1) + Z.of_nat (length days)) by lia.
    apply (IH _ day); [done|]. cbn.
    unfold newStreakCount. rewrite Hlast. cbn.
    repeat case_bool_decide; lia.
Qed.

(** From a user who has never posted, any non-empty run of posts leaves a
    streak of at least 1 and of at most the number of posts. *)
Theorem streak_bounds (p : UserProfile) (days : list Z) :
  last_post_date p = None → days ≠ [] →
  1 ≤ profile_streak_count (after_posts p days) ≤ Z.of_nat (length days).
Proof.
  intros Hnone Hdays. destruct days as [|day days]; [done|].
  cbn [after_posts foldl]. fold (after_posts (stored_profile p (newStreakCount p day) day) days).
  assert (newStreakCount p day = 1) as -> by (unfold newStreakCount; by rewrite Hnone).
  pose proof (after_posts_bounds (stored_profile p 1 day) days day 1 eq_refl) as H.
  cbn [length]. cbn in H. lia.
Qed.

Lemma streak_bounds_witness :
  let p := {| name := "Ann"; avatar_url := None; profile_streak_count := 0;
              last_post_date := None |} in
  1 ≤ profile_streak_count (after_posts p [10; 10; 12; 13]) ≤ 4.
Proof.
  intros p. exact (streak_bounds p [10; 10; 12; 13] eq_refl ltac:(discriminate)).
Defined.

Lemma after_daily_posts (p : UserProfile) (n : nat) (first : Z) :
  last_post_date p = Some (dateTime (first - 1)) →
  profile_streak_count (after_posts p (seqZ first (Z.of_nat n)))
  = profile_streak_count p + Z.of_nat n.
Proof.
  revert p first. induction n as [|n IH]; intros p first Hlast.
  - rewrite seqZ_nil by lia. cbn. lia.
  - rewrite seqZ_cons by lia.
    replace (Z.pred (Z.of_nat (S n))) with (Z.of_nat n) by lia.
    cbn [after_posts foldl].
    fold (after_posts (stored_profile p (newStreakCount p first) first)
            (seqZ (Z.succ first) (Z.of_nat n))).
    rewrite IH.
    + cbn. unfold newStreakCount. rewrite Hlast. cbn.
      rewrite isoDate_dateTime, days_between.
      rewrite bool_decide_eq_true_2 by lia. lia.
    + cbn. do 2 f_equal. lia.
Qed.

(** One post a day for [n] days in a row, from a user who has never posted,
    gives a streak of [n]. *)
Theorem daily_posts_streak (p : UserProfile) (n : nat) (first : Z) :
  last_post_date p = None → (0 < n)%nat →
  profile_streak_count (after_posts p (seqZ first (Z.of_nat n))) = Z.of_nat n.
Proof.
  intros Hnone Hn. destruct n as [|n]; [lia|].
  rewrite seqZ_cons by lia.
  replace (Z.pred (Z.of_nat (S n))) with (Z.of_nat n) by lia.
  cbn [after_posts foldl].
  fold (after_posts (stored_profile p (newStreakCount p first) first)
          (seqZ (Z.succ first) (Z.of_nat n))).
  assert (newStreakCount p first = 1) as -> by (unfold newStreakCount; by rewrite Hnone).
  rewrite after_daily_posts; [cbn; lia|].
  cbn. do 2 f_equal. lia.
Qed.

Lemma daily_posts_streak_witness :
  let p := {| name := "Ann"; avatar_url := None; profile_streak_count := 0;
              last_post_date := None |} in
  profile_streak_count (after_posts p (seqZ 100 (Z.of_nat 3))) = Z.of_nat 3.
Proof.
  intros p. exact (daily_posts_streak p 3 100 eq_refl ltac:(lia)).
Defined.

(** ** More on creating a post *)

Lemma newPostRow_avatar (uid : string) (userProfile : UserProfile) (post : NewPost)
    (streak : Z) :
  new_avatar_url (newPostRow uid userProfile post streak) ≠ "".
Proof.
  cbn. unfold js_or_string. destruct (avatar_url userProfile) as [a|]; [|done].
  by case_bool_decide.
Qed.

Ltac createPost_outcome :=
  split; [intros ? He; cbn in He; congruence|];
  split; [reflexivity|];
  split; [intros ? Hin; decompose_list_elem_of; simplify_eq; done|];
  intros ? ? ? Hin; decompose_list_elem_of; simplify_eq.

(** [createPost] never lets the cause of a failure through: whatever goes
    wrong, the caller gets the one error "Failed to create post".  It never
    deletes anything, and it writes the user's streak only as the third of
    its writes, once the post and its family links have both been accepted,
    so a rejected post never advances the streak.  Every row it inserts
    carries a non-empty avatar. *)
Theorem createPost_guarded (be : Backend) (post : NewPost) (familyIds : list string)
    (w : World) :
  let r := createPost be post familyIds w in
  (∀ e, r.1 = inl e → e = ErrorObject "Failed to create post")
  ∧ deleted_ids (added w r.2) = []
  ∧ (∀ row, InsertPost row ∈ added w r.2 → new_avatar_url row ≠ "")
  ∧ (∀ uid streak day, UpdateUser uid streak day ∈ added w r.2 →
       ∃ row newPost,
         posts_insert be row = inr newPost
         ∧ post_families_insert be ((λ f, (row_id newPost, f)) <$> familyIds) = None
         ∧ added w r.2
           = [InsertPost row;
              InsertPostFamilies ((λ f, (row_id newPost, f)) <$> familyIds);
              UpdateUser uid streak day]).
Proof.
  cbn zeta. unfold createPost, getUser.
  destruct (auth_getUser be) as [uid|]; eff_unfold;
    [|unfold added; rewrite drop_all; createPost_outcome].
  destruct (users_select be uid) as [e|userProfile];
    [unfold added; rewrite drop_all; createPost_outcome|].
  cbn.
  set (today := isoDate (clock_now be)).
  set (streak := newStreakCount userProfile today).
  set (row := newPostRow uid userProfile post streak).
  pose proof (newPostRow_avatar uid userProfile post streak) as Havatar.
  fold row in Havatar.
  destruct (posts_insert be row) as [e|newPost] eqn:Hinsert; cbn.
  { rewrite added_app. createPost_outcome. }
  destruct (post_families_insert be _) eqn:Hlinks; cbn.
  { rewrite <- !app_assoc, added_app. createPost_outcome. }
  destruct (users_update be uid streak today); cbn;
    rewrite <- !app_assoc, added_app; cbn; createPost_outcome;
    by exists row, newPost.
Qed.

(** ** More on toggling a favourite *)

Lemma flip_favorite_involutive (p : Post) : flip_favorite (flip_favorite p) = p.
Proof. destruct p. unfold flip_favorite. cbn. by rewrite negb_involutive. Qed.

Lemma toggleFavorite_accepted (be : Backend) (renderedPosts : list Post)
    (postId : string) (post : Post) (w : World) :
  List.find (λ p, bool_decide (id p = postId)) renderedPosts = Some post →
  posts_update_favorite be postId (negb (is_favorite post)) = None →
  let flipped :=
    (λ p, if bool_decide (id p = postId) then flip_favorite p else p)
      <$> posts (hook w) in
  toggleFavorite be renderedPosts postId w
  = (inr (), {| hook := with_posts flipped (hook w);
                trace := trace w ++ [UpdateFavorite postId (negb (is_favorite post));
                                     SetPosts flipped] |}).
Proof.
  intros Hfind Hok. unfold toggleFavorite. rewrite Hfind. eff_unfold.
  cbn. rewrite Hok. cbn. by rewrite <- app_assoc.
Qed.

(** Two accepted toggles of the same post bring the local feed back to what
    it was, whatever the renders they were called from. *)
Theorem toggleFavorite_twice (be be' : Backend) (rendered rendered' : list Post)
    (postId : string) (w : World) :
  is_Some (List.find (λ p, bool_decide (id p = postId)) rendered) →
  is_Some (List.find (λ p, bool_decide (id p = postId)) rendered') →
  (∀ flag, posts_update_favorite be postId flag = None) →
  (∀ flag, posts_update_favorite be' postId flag = None) →
  let w1 := (toggleFavorite be rendered postId w).2 in
  let w2 := (toggleFavorite be' rendered' postId w1).2 in
  posts (hook w2) = posts (hook w).
Proof.
  intros [post Hfind] [post' Hfind'] Hok Hok'. cbn zeta.
  rewrite (toggleFavorite_accepted be rendered postId post w Hfind (Hok _)).
  rewrite (toggleFavorite_accepted be' rendered' postId post' _ Hfind' (Hok' _)).
  cbn. rewrite <- list_fmap_compose.
  rewrite <- (list_fmap_id (posts (hook w))) at 2.
  apply list_fmap_ext. intros i p _. cbn.
  destruct (decide (id p = postId)) as [Hid|Hid].
  - rewrite (bool_decide_eq_true_2 _ Hid). cbn.
    rewrite (bool_decide_eq_true_2 _ Hid). apply flip_favorite_involutive.
  - by rewrite !(bool_decide_eq_false_2 _ Hid).
Qed.

Lemma toggleFavorite_twice_witness :
  let be := sampleBackend (JsNumber 30) (sampleRows false) in
  let w := fresh (with_posts (sampleFeed false) initialState) in
  let w1 := (toggleFavorite be (sampleFeed false) "p3" w).2 in
  let w2 := (toggleFavorite be (posts (hook w1)) "p3" w1).2 in
  is_Some (List.find (λ p, bool_decide (id p = "p3")) (sampleFeed false))
  ∧ posts (hook w2) = posts (hook w).
Proof.
  intros be w w1 w2.
  assert (is_Some (List.find (λ p, bool_decide (id p = "p3")) (sampleFeed false))) as H1
    by (vm_compute; eauto).
  assert (is_Some (List.find (λ p, bool_decide (id p = "p3")) (posts (hook w1)))) as H2
    by (vm_compute; eauto).
  split; [exact H1|].
  exact (toggleFavorite_twice be be (sampleFeed false) (posts (hook w1)) "p3" w
           H1 H2 (λ _, eq_refl) (λ _, eq_refl)).
Defined.

(** When the rendered post and the posts of that id in the current state
    agree on the flag, an accepted toggle leaves the local feed in step with
    what was written to the backend, and changes nothing else: ids and
    timestamps stay in place, and posts of other ids are untouched. *)
Theorem toggleFavorite_in_step (be : Backend) (rendered : list Post) (postId : string)
    (post : Post) (w : World) :
  List.find (λ p, bool_decide (id p = postId)) rendered = Some post →
  posts_update_favorite be postId (negb (is_favorite post)) = None →
  (∀ p, p ∈ posts (hook w) → id p = postId → is_favorite p = is_favorite post) →
  let w' := (toggleFavorite be rendered postId w).2 in
  let written := negb (is_favorite post) in
  UpdateFavorite postId written ∈ added w w'
  ∧ id <$> posts (hook w') = id <$> posts (hook w)
  ∧ (∀ p, p ∈ posts (hook w') → id p = postId → is_favorite p = written)
  ∧ (∀ p, p ∈ posts (hook w) → id p ≠ postId → p ∈ posts (hook w')).
Proof.
  intros Hfind Hok Hagree. cbn zeta.
  rewrite (toggleFavorite_accepted be rendered postId post w Hfind Hok).
  cbn [snd hook posts with_posts]. rewrite added_app. repeat split.
  - apply elem_of_cons. by left.
  - rewrite <- list_fmap_compose. apply list_fmap_ext.
    intros i p _. cbn. by case_bool_decide.
  - intros p Hp Hid. apply list_elem_of_fmap in Hp as (q & -> & Hq).
    case_bool_decide as Hq'; [|done]. cbn. f_equal. by apply Hagree.
  - intros p Hp Hid. apply list_elem_of_fmap. exists p.
    by rewrite bool_decide_eq_false_2.
Qed.

Lemma toggleFavorite_in_step_witness :
  let be := sampleBackend (JsNumber 30) (sampleRows false) in
  let feed := sampleFeed false in
  let w := fresh (with_posts feed initialState) in
  let post := processPost "f" "A" (mkRow "p3" 3 false None) in
  let w' := (toggleFavorite be feed "p3" w).2 in
  List.find (λ p, bool_decide (id p = "p3")) feed = Some post
  ∧ UpdateFavorite "p3" true ∈ added w w'
  ∧ id <$> posts (hook w') = id <$> feed
  ∧ (∀ p, p ∈ posts (hook w') → id p = "p3" → is_favorite p = true)
  ∧ (∀ p, p ∈ feed → id p ≠ "p3" → p ∈ posts (hook w')).
Proof.
  intros be feed w post w'. split; [reflexivity|].
  apply (toggleFavorite_in_step be feed "p3" post w eq_refl eq_refl).
  intros p Hp Hid. unfold w, feed, sampleFeed, sampleRows in Hp. cbn in Hp.
  decompose_list_elem_of; subst p; try discriminate Hid; reflexivity.
Defined.

(** A stale render: the post was made a favourite after the render the
    handler belongs to; the backend is told to make it a favourite, and the
    local copy is flipped back to not being one. *)
Example toggleFavorite_stale_render :
  let be := sampleBackend (JsNumber 30) (sampleRows false) in
  let rendered := sampleFeed false in
  let current := flip_favorite <$> sampleFeed false in
  let w' := (toggleFavorite be rendered "p3" (fresh (with_posts current initialState))).2 in
  trace w' !! 0%nat = Some (UpdateFavorite "p3" true)
  ∧ (is_favorite <$> List.find (λ p, bool_decide (id p = "p3")) (posts (hook w')))
    = Some false.
Proof. vm_compute. done. Qed.

(** ** More on the synchroniser *)

Lemma settled_app (t1 t2 : list Event) : settled (t1 ++ t2) = (settled t1 + settled t2)%nat.
Proof. unfold settled. by rewrite filter_app, length_app. Qed.

Lemma settled_delete_requests (l : list Post) : settled (delete_requests l) = 0%nat.
Proof. induction l as [|p l IH]; [done|]. exact IH. Qed.

Lemma settled_error (msg : string) (b : bool) :
  settled [SetError msg; SetLoading b] = 1%nat.
Proof. reflexivity. Qed.

Lemma settled_publish (ps : list Post) (b : bool) :
  settled [SetPosts ps; SetLoading b] = 1%nat.
Proof. reflexivity. Qed.

(** What one hydration does to the indicators and to the count of settled
    hydrations. *)
Lemma fetchPosts_indicators (be : Backend) (fam : string) (w : World) :
  let w' := (fetchPosts be fam w).2 in
  loading (hook w') = false
  ∧ (is_Some (error (hook w)) → is_Some (error (hook w')))
  ∧ settled (trace w') = S (settled (trace w)).
Proof.
  cbn zeta. destruct (fetch_failure be fam) as [e|] eqn:Hfail.
  - rewrite (fetchPosts_failed be fam e w Hfail). cbn [snd hook trace loading error].
    rewrite settled_app, settled_error. repeat split; [eauto | lia].
  - apply fetch_no_failure in Hfail as (uid & v & data & Hu & Hf & Hp).
    rewrite (fetchPosts_ok be fam uid v data w Hu Hf Hp).
    cbn [snd hook trace loading error].
    rewrite !settled_app, settled_delete_requests, settled_publish.
    repeat split; [done | lia].
Qed.

Lemma toggleFavorite_indicators (be : Backend) (rendered : list Post) (postId : string)
    (w : World) :
  let w' := (toggleFavorite be rendered postId w).2 in
  loading (hook w') = loading (hook w)
  ∧ error (hook w') = error (hook w)
  ∧ settled (trace w') = settled (trace w)
  ∧ (posts (hook w) = [] → posts (hook w') = []).
Proof.
  cbn zeta. unfold toggleFavorite.
  destruct (List.find _ rendered) as [post|]; eff_unfold; [|done].
  cbn. destruct (posts_update_favorite be postId _); cbn;
    unfold settled; rewrite !filter_app, !length_app;
    repeat (change (length (filter _ [_])) with 0%nat);
    (split; [done|]); (split; [done|]); (split; [lia|]); by intros ->.
Qed.

(** With no family selected nothing ever starts, and the hook stays as it
    was mounted: no posts, no error, and [loading] still true. *)
Theorem no_family_no_hydration (signals : list Signal) :
  let e := run (mount None) signals in
  in_flight e = [] ∧ started e = 0%nat
  ∧ posts (hook (state e)) = [] ∧ error (hook (state e)) = None
  ∧ loading (hook (state e)) = true.
Proof.
  cbn zeta.
  assert (∀ e, familyId e = None ∧ in_flight e = [] ∧ started e = 0%nat
               ∧ posts (hook (state e)) = [] ∧ error (hook (state e)) = None
               ∧ loading (hook (state e)) = true →
          let e' := run e signals in
          in_flight e' = [] ∧ started e' = 0%nat
          ∧ posts (hook (state e')) = [] ∧ error (hook (state e')) = None
          ∧ loading (hook (state e')) = true) as Hgen.
  { induction signals as [|s signals IH]; intros e He; [by destruct He|].
    cbn. apply IH. destruct He as (Hfam & Hin & Hst & Hposts & Herr & Hload).
    destruct s as [| | |i be|rendered postId be]; cbn; rewrite ?Hfam, ?Hin; cbn;
      try done.
    destruct (toggleFavorite_indicators be rendered postId (state e))
      as (Hl & He' & _ & Hp).
    by rewrite Hl, He', (Hp Hposts). }
  by apply Hgen.
Qed.

(** Nothing in the hook sets [loading] back to true or clears the error:
    once a hydration has settled [loading] stays false, and once an error is
    recorded an error stays recorded, whatever happens next. *)
Theorem indicators_never_reset (e : Engine) (signals : list Signal) :
  let e' := run e signals in
  (loading (hook (state e)) = false → loading (hook (state e')) = false)
  ∧ (is_Some (error (hook (state e))) → is_Some (error (hook (state e')))).
Proof.
  cbn zeta. revert e. induction signals as [|s signals IH]; intros e; [done|].
  cbn. destruct (IH (step e s)) as [IHl IHe].
  split; intros H; [apply IHl | apply IHe];
    destruct s as [| | |i be|rendered postId be]; cbn;
    try (by destruct (familyId e));
    try (destruct (in_flight e !! i); [|done];
         by apply fetchPosts_indicators);
    destruct (toggleFavorite_indicators be rendered postId (state e))
      as (Hl & He' & _); congruence.
Qed.

Lemma indicators_never_reset_witness :
  let working := sampleBackend (JsNumber 30) (sampleRows false) in
  let failing := with_auth None working in
  let e := run (mount (Some "f")) [Effect; Settle 0 failing] in
  let e' := run e [Refresh; Settle 0 working; Toggle (sampleFeed false) "p4" working] in
  loading (hook (state e)) = false
  ∧ is_Some (error (hook (state e)))
  ∧ loading (hook (state e')) = false
  ∧ is_Some (error (hook (state e'))).
Proof.
  intros working failing e e'.
  assert (loading (hook (state e)) = false) as Hl by reflexivity.
  assert (is_Some (error (hook (state e)))) as He by (vm_compute; eauto).
  pose proof (indicators_never_reset e
    [Refresh; Settle 0 working; Toggle (sampleFeed false) "p4" working]) as [Hl' He'].
  split; [exact Hl|]. split; [exact He|].
  split; [exact (Hl' Hl) | exact (He' He)].
Defined.

(** Every call of [fetchPosts] is accounted for: those started are those
    still running plus those that have reached their [finally]. *)
Theorem hydrations_accounted (fam : option string) (signals : list Signal) :
  let e := run (mount fam) signals in
  started e = (length (in_flight e) + settled (trace (state e)))%nat.
Proof.
  cbn zeta.
  assert (∀ e, started e = (length (in_flight e) + settled (trace (state e)))%nat →
          started (run e signals)
          = (length (in_flight (run e signals))
             + settled (trace (state (run e signals))))%nat) as Hgen.
  { induction signals as [|s signals IH]; intros e He; [done|].
    cbn. apply IH.
    destruct s as [| | |i be|rendered postId be]; cbn.
    1-3: destruct (familyId e); cbn; rewrite ?length_app; cbn; lia.
    - destruct (in_flight e !! i) eqn:Hi; [|done]. cbn.
      destruct (fetchPosts_indicators be s (state e)) as (_ & _ & ->).
      apply lookup_lt_Some in Hi. rewrite length_delete by eauto using lookup_lt_is_Some_2.
      lia.
    - destruct (toggleFavorite_indicators be rendered postId (state e))
        as (_ & _ & -> & _). done. }
  by apply Hgen.
Qed.

(** ** The sign-in screen *)

(** [handleAuth] always ends with [loading] false and no success message.
    In [login] mode it calls [signIn] once, with the e-mail and the password
    of the state; the error it leaves is the one of this attempt, or none if
    [signIn] resolved: an earlier error never survives a submission.  In
    [signup] mode it calls nothing and clears the error. *)
Theorem handleAuth_outcome (signIn : string → string → option Thrown)
    (st : AuthScreen.State) :
  let r := AuthScreen.handleAuth signIn st in
  AuthScreen.loading r.1 = false
  ∧ AuthScreen.success r.1 = None
  ∧ AuthScreen.mode r.1 = AuthScreen.mode st
  ∧ AuthScreen.email r.1 = AuthScreen.email st
  ∧ AuthScreen.password r.1 = AuthScreen.password st
  ∧ match AuthScreen.mode st with
    | AuthScreen.login =>
        r.2 = [(AuthScreen.email st, AuthScreen.password st)]
        ∧ AuthScreen.error r.1
          = (message_or "An error occurred"
               <$> signIn (AuthScreen.email st) (AuthScreen.password st))
    | AuthScreen.signup => r.2 = [] ∧ AuthScreen.error r.1 = None
    end.
Proof.
  cbn zeta. unfold AuthScreen.handleAuth. cbn.
  destruct (AuthScreen.mode st) eqn:Hmode; cbn; [|done].
  by destruct (signIn _ _).
Qed.

(** One run of [handleAuth] is its beginning followed, in [login] mode, by
    the settling of the call it made. *)
Lemma handleAuth_split (signIn : string → string → option Thrown)
    (st : AuthScreen.State) :
  AuthScreen.handleAuth signIn st
  = match AuthScreen.mode st with
    | AuthScreen.login =>
        (AuthScreen.handleAuth_settle
           (signIn (AuthScreen.email st) (AuthScreen.password st))
           (AuthScreen.handleAuth_begin st).1,
         (AuthScreen.handleAuth_begin st).2)
    | AuthScreen.signup => AuthScreen.handleAuth_begin st
    end.
Proof.
  unfold AuthScreen.handleAuth, AuthScreen.handleAuth_begin,
    AuthScreen.handleAuth_settle. cbn.
  destruct (AuthScreen.mode st); cbn; [|done]. by destruct (signIn _ _).
Qed.

Lemma act_at_rest (s : AuthScreen.Screen) (a : AuthScreen.Action) :
  AuthScreen.success (AuthScreen.view s) = None
  ∧ (AuthScreen.pending s = [] → AuthScreen.loading (AuthScreen.view s) = false) →
  AuthScreen.success (AuthScreen.view (AuthScreen.act s a)) = None
  ∧ (AuthScreen.pending (AuthScreen.act s a) = [] →
     AuthScreen.loading (AuthScreen.view (AuthScreen.act s a)) = false).
Proof.
  intros [Hs Hl]. unfold AuthScreen.act.
  destruct a as [v|v| |i outcome| | |], (AuthScreen.mode (AuthScreen.view s)) eqn:Hmode;
    cbn; try done.
  - unfold AuthScreen.handleAuth_begin. cbn. rewrite Hmode. cbn.
    split; [done|]. intros Hnil. by apply app_eq_nil in Hnil as [_ ?].
  - destruct (AuthScreen.pending s !! i); [|done]. cbn. split; [|done].
    by destruct outcome.
  - destruct (AuthScreen.pending s !! i); [|done]. cbn. split; [|done].
    by destruct outcome.
Qed.

(** Whatever happens on the sign-in screen, in whatever order, no success
    message is ever set, and whenever no call of [signIn] is running the
    spinner is off. *)
Theorem session_at_rest (actions : list AuthScreen.Action) :
  let s := AuthScreen.session actions in
  AuthScreen.success (AuthScreen.view s) = None
  ∧ (AuthScreen.pending s = [] → AuthScreen.loading (AuthScreen.view s) = false).
Proof.
  cbn zeta. unfold AuthScreen.session.
  assert (∀ s,
    AuthScreen.success (AuthScreen.view s) = None
    ∧ (AuthScreen.pending s = [] → AuthScreen.loading (AuthScreen.view s) = false) →
    AuthScreen.success (AuthScreen.view (foldl AuthScreen.act s actions)) = None
    ∧ (AuthScreen.pending (foldl AuthScreen.act s actions) = [] →
       AuthScreen.loading (AuthScreen.view (foldl AuthScreen.act s actions)) = false))
    as Hgen.
  { induction actions as [|a actions IH]; intros s Hs; [done|].
    cbn. by apply IH, act_at_rest. }
  by apply Hgen.
Qed.

Lemma session_at_rest_witness :
  let s := AuthScreen.session
             [AuthScreen.TypeEmail "a@b.c"; AuthScreen.TypePassword "wrong";
              AuthScreen.Submit; AuthScreen.ClickSignUp;
              AuthScreen.Settle 0 (Some (ErrorObject "Invalid login"))] in
  AuthScreen.pending s = []
  ∧ AuthScreen.success (AuthScreen.view s) = None
  ∧ AuthScreen.loading (AuthScreen.view s) = false.
Proof.
  intros s. split; [reflexivity|].
  pose proof (session_at_rest
    [AuthScreen.TypeEmail "a@b.c"; AuthScreen.TypePassword "wrong";
     AuthScreen.Submit; AuthScreen.ClickSignUp;
     AuthScreen.Settle 0 (Some (ErrorObject "Invalid login"))]) as [Hs Hl].
  split; [exact Hs | exact (Hl eq_refl)].
Defined.

(** While the call of [signIn] is running the spinner is on, and the user
    can leave for the sign-up form; the error of the attempt then shows up
    there. *)
Example session_ex :
  let waiting := AuthScreen.session
                   [AuthScreen.TypeEmail "a@b.c"; AuthScreen.TypePassword "wrong";
                    AuthScreen.Submit; AuthScreen.ClickSignUp] in
  let settled := AuthScreen.act waiting
                   (AuthScreen.Settle 0 (Some (ErrorObject "Invalid login"))) in
  AuthScreen.pending waiting = [("a@b.c", "wrong")]
  ∧ AuthScreen.loading (AuthScreen.view waiting) = true
  ∧ AuthScreen.mode (AuthScreen.view settled) = AuthScreen.signup
  ∧ AuthScreen.error (AuthScreen.view settled) = Some "Invalid login".
Proof. vm_compute. done. Qed.

(** ** The stored limit, enforced *)

(** C10. When the stored [slideshow_photo_limit] is [null], [undefined] or
    [0], the limit in force is 30 and the hydration is the one a stored
    limit of 30 gives.  It is not refused: no error is set.  It enforces
    retention with 30: a feed of at most 30 posts is published whole, with
    no deletion, so a stored 0 does not empty it; a longer feed with enough
    non-favourites loses exactly its [count - 30] oldest non-favourites and
    at most 30 posts are published; a longer feed without enough
    non-favourites is published whole. *)
Theorem default_photo_limit (be : Backend) (fam uid : string) (v : JsVal)
    (data : option (list PostRow)) (h : HookState) :
  auth_getUser be = Some uid →
  families_select be fam = inr v →
  posts_select be fam = inr data →
  v = JsNull ∨ v = JsUndefined ∨ v = JsNumber 0 →
  let feed := default [] (fmap (M := list) (processPost fam uid) <$> data) in
  let count := Z.of_nat (length feed) in
  let non_favorites := filter (λ post, negb (is_favorite post)) feed in
  let oldest := take (Z.to_nat (count - 30)) (nonFavoritePosts feed) in
  let r := fetchPosts be fam (fresh h) in
  let w := r.2 in
  js_or v 30 = 30
  ∧ r = fetchPosts (with_photo_limit (JsNumber 30) be) fam (fresh h)
  ∧ r.1 = inr ()
  ∧ error (hook w) = error h
  ∧ (count ≤ 30 → deleted_ids (trace w) = [] ∧ posts (hook w) = feed)
  ∧ (count > 30 → Z.of_nat (length non_favorites) >= count - 30 →
     deleted_ids (trace w) = id <$> oldest
     ∧ Z.of_nat (length (deleted_ids (trace w))) = count - 30
     ∧ posts (hook w) = remainingPosts feed oldest
     ∧ Z.of_nat (length (posts (hook w))) ≤ 30)
  ∧ (count > 30 → Z.of_nat (length non_favorites) < count - 30 →
     deleted_ids (trace w) = [] ∧ posts (hook w) = feed).
Proof.
  intros Hu Hf Hp Hv feed count non_favorites oldest r w.
  assert (js_or v 30 = 30) as Hlimit by (by destruct Hv as [->|[->| ->]]).
  assert (length (nonFavoritePosts feed) = length non_favorites) as Hsort
    by by rewrite nonFavoritePosts_perm.
  split; [done|]. split.
  { subst r. unfold fetchPosts, getUser. eff_unfold.
    cbn [auth_getUser families_select posts_select with_photo_limit].
    rewrite Hf, Hu, Hlimit. done. }
  subst w r. rewrite (fetchPosts_ok be fam uid v data _ Hu Hf Hp).
  fold feed. rewrite Hlimit. cbn [fst snd hook trace posts error fresh app].
  rewrite deleted_ids_app, deleted_ids_requests. cbn [deleted_ids omap].
  rewrite app_nil_r.
  split; [done|]. split; [done|]. split; [|split].
  - intros Hfit. rewrite published_no_deletion by by apply postsToDelete_fits.
    by rewrite postsToDelete_fits.
  - intros Hover Henough.
    pose proof (published_length feed 30) as Hlen. unfold published in *.
    rewrite postsToDelete_excess in * by (fold count; lia). fold count oldest in Hlen |- *.
    assert (length oldest = Z.to_nat (count - 30)) as Holdest
      by (unfold oldest; rewrite length_take_le; lia).
    rewrite length_fmap. repeat split; unfold count in *; lia.
  - intros Hover Hfew.
    rewrite published_no_deletion
      by (apply postsToDelete_favorites; fold count; lia).
    by rewrite postsToDelete_favorites by (fold count; lia).
Qed.

Lemma default_photo_limit_witness :
  let be := sampleBackend (JsNumber 0) (sampleRows false) in
  let r := fetchPosts be "f" (fresh initialState) in
  families_select be "f" = inr (JsNumber 0)
  ∧ Z.of_nat (length (sampleFeed false)) ≤ 30
  ∧ js_or (JsNumber 0) 30 = 30
  ∧ r.1 = inr ()
  ∧ error (hook r.2) = None
  ∧ deleted_ids (trace r.2) = []
  ∧ posts (hook r.2) = sampleFeed false.
Proof.
  intros be r.
  assert (Z.of_nat (length (sampleFeed false)) ≤ 30) as Hfit by (vm_compute; congruence).
  split; [reflexivity|]. split; [exact Hfit|].
  destruct (default_photo_limit be "f" "A" (JsNumber 0) (Some (sampleRows false))
              initialState eq_refl eq_refl eq_refl
              (or_intror (or_intror eq_refl)))
    as (Hlimit & _ & Hok & Herr & Hkeep & _).
  destruct (Hkeep Hfit) as [Hdel Hposts].
  split; [exact Hlimit|]. split; [exact Hok|]. split; [exact Herr|].
  split; [exact Hdel | exact Hposts].
Defined.

(** A stored limit of 0 on a feed of 31: the oldest post goes and 30 are
    published, as under a stored limit of 30. *)
Example zero_limit_evicts_to_thirty :
  let rows := manyRows 31 in
  let w := (fetchPosts (sampleBackend (JsNumber 0) rows) "f" (fresh initialState)).2 in
  let w30 := (fetchPosts (sampleBackend (JsNumber 30) rows) "f" (fresh initialState)).2 in
  (row_id <$> last rows) = Some "?"
  ∧ deleted_ids (trace w) = ["?"]
  ∧ length (posts (hook w)) = 30%nat
  ∧ error (hook w) = None
  ∧ w = w30.
Proof. vm_compute. done. Qed.
